(** * Address4: a shallow embedding of [src/lib/ipv4.ts]

    The class [Address4] is embedded as a record and its methods as
    functions over that record.  JavaScript strings are lists of
    characters (code units below 256), JavaScript numbers are integers
    extended with [NaN], jsbn's [BigInteger] is [Z], and a method that can
    raise a [TypeError] (a property read on [null]) returns an [option] whose
    [None] is the raised exception.  The library functions the class calls
    ([parseInt], [slice], [split], [join], lodash's [padStart] and [repeat],
    sprintf-js's [sprintf], jsbn's constructor and [toString]) are embedded
    next to it. *)

From Stdlib Require Import ZArith Ascii String List Bool Lia.
Import ListNotations.
Open Scope Z_scope.

(** ** Characters and strings *)

Definition str := list ascii.

(** A string literal as a JavaScript string. *)
Notation "'js' s" := (list_ascii_of_string s%string) (at level 9, only parsing).

Definition code (c : ascii) : Z := Z.of_N (N_of_ascii c).
Definition chr (z : Z) : ascii := ascii_of_N (Z.to_N z).

Definition len (s : str) : Z := Z.of_nat (List.length s).

Fixpoint str_eqb (a b : str) : bool :=
  match a, b with
  | [], [] => true
  | x :: a', y :: b' => Ascii.eqb x y && str_eqb a' b'
  | _, _ => false
  end.

(** ** Numbers

    A JavaScript number is modelled as an exact integer or [NaN]; the
    doubles of the engine are exact on integers below [2^53], far above the
    32-bit values of an address.  (A suffix of more than fifteen digits is
    read exactly here where the engine rounds it; it is out of the mask
    range either way.) *)

Inductive number : Type :=
| Num (z : Z)
| NaN.

Definition num_ltb (a b : number) : bool :=
  match a, b with
  | Num x, Num y => x <? y
  | _, _ => false
  end.

Definition num_sub (a b : number) : number :=
  match a, b with
  | Num x, Num y => Num (x - y)
  | _, _ => NaN
  end.

(** [ToIntegerOrInfinity]: what [slice] and [repeat] do to a numeric argument. *)
Definition toInteger (n : number) : Z :=
  match n with
  | Num z => z
  | NaN => 0
  end.

(** ** Digits in a radix *)

(** The digit characters [0-9a-z], as [Number.prototype.toString] writes them. *)
Definition digit_char (d : Z) : ascii :=
  if d <? 10 then chr (48 + d) else chr (87 + d).

(** The value of an alphanumeric character, as [parseInt] and jsbn's
    [intAt] read it: [0-9], [a-z] and [A-Z]. *)
Definition digit_val (c : ascii) : option Z :=
  let k := code c in
  if (48 <=? k) && (k <=? 57) then Some (k - 48)
  else if (97 <=? k) && (k <=? 122) then Some (k - 87)
  else if (65 <=? k) && (k <=? 90) then Some (k - 55)
  else None.

(** [c] is a digit of radix [r]. *)
Definition is_digit (r : Z) (c : ascii) : bool :=
  match digit_val c with
  | Some d => d <? r
  | None => false
  end.

Definition dval (c : ascii) : Z :=
  match digit_val c with
  | Some d => d
  | None => 0
  end.

(** Positional value of a digit string, most significant digit first. *)
Definition of_digits (r : Z) (s : str) : Z :=
  fold_left (fun acc c => acc * r + dval c) s 0.

Fixpoint digits_aux (fuel : nat) (r n : Z) (acc : str) : str :=
  match fuel with
  | O => acc
  | S f =>
      let acc' := digit_char (n mod r) :: acc in
      if n / r =? 0 then acc' else digits_aux f r (n / r) acc'
  end.

(** The digits of a non-negative integer, without leading zeros ("0" for 0). *)
Definition digits (r n : Z) : str :=
  digits_aux (S (Z.to_nat (Z.log2 n))) r n [].

(** [Number.prototype.toString(radix)] *)
Definition Number_toString (r : Z) (n : number) : str :=
  match n with
  | NaN => js "NaN"
  | Num z => if z <? 0 then "-"%char :: digits r (- z) else digits r z
  end.

(** [String(n)], the conversion [Array.prototype.join] and [+] apply: plain
    decimal digits, as the engine prints every integer below [10^21]. *)
Definition String_of_number (n : number) : str := Number_toString 10 n.

(** ** The global [parseInt]

    The value of the digits read is exact; the engine's is exact for up to
    fifteen decimal digits (every value below [2^53]). *)

Definition is_space (c : ascii) : bool :=
  let k := code c in
  ((9 <=? k) && (k <=? 13)) || (k =? 32) || (k =? 160).

Fixpoint skip_spaces (s : str) : str :=
  match s with
  | c :: t => if is_space c then skip_spaces t else s
  | [] => []
  end.

Fixpoint take_digits (r : Z) (s : str) : str :=
  match s with
  | c :: t => if is_digit r c then c :: take_digits r t else []
  | [] => []
  end.

Definition strip_hex_prefix (r : Z) (s : str) : str :=
  if r =? 16 then
    match s with
    | c :: x :: t =>
        if Ascii.eqb c "0"%char && (Ascii.eqb x "x"%char || Ascii.eqb x "X"%char)
        then t else s
    | _ => s
    end
  else s.

Definition parse_unsigned (r : Z) (s : str) : number :=
  match take_digits r (strip_hex_prefix r s) with
  | [] => NaN
  | ds => Num (of_digits r ds)
  end.

Definition num_neg (n : number) : number :=
  match n with
  | Num z => Num (- z)
  | NaN => NaN
  end.

Definition parseInt (s : str) (r : Z) : number :=
  match skip_spaces s with
  | c :: t =>
      if Ascii.eqb c "-"%char then num_neg (parse_unsigned r t)
      else if Ascii.eqb c "+"%char then parse_unsigned r t
      else parse_unsigned r (c :: t)
  | [] => NaN
  end.

(** ** String and array methods *)

(** [String.prototype.slice(start, end)] *)
Definition slice (s : str) (start stop : number) : str :=
  let n := len s in
  let clamp k := if k <? 0 then Z.max (n + k) 0 else Z.min k n in
  let from := clamp (toInteger start) in
  let to := clamp (toInteger stop) in
  firstn (Z.to_nat (to - from)) (skipn (Z.to_nat from) s).

(** [String.prototype.split(sep)] for a one-character separator. *)
Fixpoint split (sep : ascii) (s : str) : list str :=
  match s with
  | [] => [[]]
  | c :: t =>
      if Ascii.eqb c sep then [] :: split sep t
      else match split sep t with
           | g :: gs => (c :: g) :: gs
           | [] => [[c]]
           end
  end.

(** [Array.prototype.join(sep)] on an array of strings. *)
Fixpoint join (sep : str) (l : list str) : str :=
  match l with
  | [] => []
  | [x] => x
  | x :: t => x ++ sep ++ join sep t
  end.

(** [hex.replace(/:/g, '')]: every occurrence of the character is dropped. *)
Definition remove_char (c : ascii) (s : str) : str :=
  filter (fun x => negb (Ascii.eqb x c)) s.

(** lodash [repeat(string, n)] *)
Definition repeat_str (s : str) (n : number) : str :=
  let k := toInteger n in
  if k <? 1 then [] else concat (repeat s (Z.to_nat k)).

(** lodash [padStart(string, length, chars)] for a one-character pad. *)
Definition padStart (s : str) (n : Z) (c : ascii) : str :=
  if n <=? len s then s else repeat c (Z.to_nat (n - len s)) ++ s.

(** sprintf-js [sprintf('%02x', n)]: the argument is taken as an unsigned
    32-bit integer ([>>> 0]), written in hexadecimal and zero-padded to
    two characters. *)
Definition sprintf_02x (n : number) : str :=
  padStart (digits 16 (toInteger n mod 2 ^ 32)) 2 "0"%char.

(** jsbn [new BigInteger(s, radix)]: characters that are not alphanumeric
    are skipped, and a ["-"] before the first digit negates the value.  The
    class only ever passes strings of digits of the radix; the radix is 10
    where the source leaves it out ([new BigInteger('1')]). *)
Fixpoint has_leading_minus (s : str) : bool :=
  match s with
  | c :: t =>
      match digit_val c with
      | Some _ => false
      | None => Ascii.eqb c "-"%char || has_leading_minus t
      end
  | [] => false
  end.

Definition new_BigInteger (s : str) (r : Z) : Z :=
  let v := of_digits r (filter (fun c => match digit_val c with Some _ => true | None => false end) s) in
  if has_leading_minus s then - v else v.

(** jsbn [BigInteger.prototype.toString(radix)] *)
Definition BigInteger_toString (b : Z) (r : Z) : str :=
  Number_toString r (Num b).

(** ** Exceptions

    A method that reads a property of [null] raises a [TypeError]; such a
    method returns [None] where it raises and [Some] of its result where
    it returns. *)

Definition bind {A B : Type} (a : option A) (k : A -> option B) : option B :=
  match a with
  | Some x => k x
  | None => None
  end.

Notation "x <- a ;; k" := (bind a (fun x => k))
  (at level 61, a at next level, right associativity).

(** ** The constants of [./v4/constants] *)

(** Modelled from the spec: [constants.BITS], the width of an address
    ("CIDR mask: integer 0-32"); the file [v4/constants] is not part of the
    sources. *)
Definition BITS : Z := 32.

(** Modelled from the spec: [constants.GROUPS], "fixed count = 4 (the number
    of dotted-decimal octets)". *)
Definition GROUPS : Z := 4.

Definition is_nil (s : str) : bool :=
  match s with
  | [] => true
  | _ => false
  end.

(** [s] is a ["/"] followed by one or more decimal digits. *)
Definition is_subnet_suffix (s : str) : bool :=
  match s with
  | c :: t => Ascii.eqb c "/"%char && negb (is_nil t) && forallb (is_digit 10) t
  | [] => false
  end.

(** Modelled from the spec: [constants.RE_SUBNET_STRING], the pattern of "a
    trailing "/<digits>" subnet suffix".  [RE_SUBNET_STRING_exec s] is the
    matched text ([subnet[0]]) of the first match, if there is one. *)
Fixpoint RE_SUBNET_STRING_exec (s : str) : option str :=
  match s with
  | [] => None
  | c :: t => if is_subnet_suffix s then Some s else RE_SUBNET_STRING_exec t
  end.

(** [address.replace(constants.RE_SUBNET_STRING, '')]: the first match is
    removed. *)
Fixpoint RE_SUBNET_STRING_strip (s : str) : str :=
  match s with
  | [] => []
  | c :: t => if is_subnet_suffix s then [] else c :: RE_SUBNET_STRING_strip t
  end.

(** One group of the dotted-decimal grammar: "one-to-three decimal digits
    with value 0-255". *)
Definition octet (g : str) : bool :=
  negb (is_nil g) && (len g <=? 3) && forallb (is_digit 10) g
  && (of_digits 10 g <=? 255).

(** Modelled from the spec: [constants.RE_ADDRESS], the dotted-decimal
    grammar "four groups separated by periods, each group one-to-three decimal
    digits with value 0-255, with no leading/trailing/embedded whitespace and
    no other characters".  The scanner reads [n] groups from left to right. *)
Fixpoint RE_ADDRESS_groups (n : nat) (s : str) : bool :=
  match n with
  | O => false
  | S n' =>
      let g := take_digits 10 s in
      octet g &&
      match n', skipn (List.length g) s with
      | O, [] => true
      | S _, "."%char :: rest => RE_ADDRESS_groups n' rest
      | _, _ => false
      end
  end.

(** [address.match(constants.RE_ADDRESS)] is not [null]. *)
Definition RE_ADDRESS_match (s : str) : bool :=
  RE_ADDRESS_groups (Z.to_nat GROUPS) s.

(** ** The class *)

Record Address4 : Type := mkAddress4 {
  address : str;
  addressMinusSuffix : option str;
  error : option str;
  groups : Z;
  parsedAddress : list str;
  parsedSubnet : str;
  subnet : str;
  subnetMask : number;
  v4 : bool;
  valid : bool
}.

(** The field initialisers of the class, run before the constructor body. *)
Definition Address4_fields (a : str) : Address4 :=
  {| address := a;
     addressMinusSuffix := None;
     error := None;
     groups := GROUPS;
     parsedAddress := [];
     parsedSubnet := [];
     subnet := js "/32";
     subnetMask := Num 32;
     v4 := true;
     valid := false |}.

Definition set_addressMinusSuffix (this : Address4) (x : option str) : Address4 :=
  mkAddress4 (address this) x (error this) (groups this) (parsedAddress this)
    (parsedSubnet this) (subnet this) (subnetMask this) (v4 this) (valid this).

Definition set_error (this : Address4) (x : option str) : Address4 :=
  mkAddress4 (address this) (addressMinusSuffix this) x (groups this)
    (parsedAddress this) (parsedSubnet this) (subnet this) (subnetMask this)
    (v4 this) (valid this).

Definition set_parsedAddress (this : Address4) (x : list str) : Address4 :=
  mkAddress4 (address this) (addressMinusSuffix this) (error this) (groups this)
    x (parsedSubnet this) (subnet this) (subnetMask this) (v4 this) (valid this).

Definition set_parsedSubnet (this : Address4) (x : str) : Address4 :=
  mkAddress4 (address this) (addressMinusSuffix this) (error this) (groups this)
    (parsedAddress this) x (subnet this) (subnetMask this) (v4 this) (valid this).

Definition set_subnet (this : Address4) (x : str) : Address4 :=
  mkAddress4 (address this) (addressMinusSuffix this) (error this) (groups this)
    (parsedAddress this) (parsedSubnet this) x (subnetMask this) (v4 this)
    (valid this).

Definition set_subnetMask (this : Address4) (x : number) : Address4 :=
  mkAddress4 (address this) (addressMinusSuffix this) (error this) (groups this)
    (parsedAddress this) (parsedSubnet this) (subnet this) x (v4 this)
    (valid this).

Definition set_valid (this : Address4) (x : bool) : Address4 :=
  mkAddress4 (address this) (addressMinusSuffix this) (error this) (groups this)
    (parsedAddress this) (parsedSubnet this) (subnet this) (subnetMask this)
    (v4 this) x.

(** [subnet[0].replace('/', '')]: the first occurrence is dropped. *)
Fixpoint remove_first (c : ascii) (s : str) : str :=
  match s with
  | [] => []
  | x :: t => if Ascii.eqb x c then t else x :: remove_first c t
  end.

(** [parse(address)]: returns the groups and sets [valid] or [error] on
    [this]. *)
Definition parse (this : Address4) (addr : str) : Address4 * list str :=
  let groups := split "."%char addr in
  let this :=
    if RE_ADDRESS_match addr then set_valid this true
    else set_error this (Some (js "Invalid IPv4 address.")) in
  (this, groups).

(** The constructor, after the subnet suffix has been dealt with. *)
Definition Address4_parse_groups (this : Address4) (addr : str) : Address4 :=
  let this := set_addressMinusSuffix this (Some addr) in
  let (this, groups) := parse this addr in
  set_parsedAddress this groups.

(** [new Address4(address)] *)
Definition new_Address4 (addr : str) : Address4 :=
  let this := Address4_fields addr in
  match RE_SUBNET_STRING_exec addr with
  | Some m =>
      let this := set_parsedSubnet this (remove_first "/"%char m) in
      let this := set_subnetMask this (parseInt (parsedSubnet this) 10) in
      let this := set_subnet this ("/"%char :: String_of_number (subnetMask this)) in
      if num_ltb (subnetMask this) (Num 0) || num_ltb (Num BITS) (subnetMask this)
      then set_error (set_valid this false) (Some (js "Invalid subnet mask."))
      else Address4_parse_groups this (RE_SUBNET_STRING_strip addr)
  | None => Address4_parse_groups this addr
  end.

Definition isValid (this : Address4) : bool := valid this.

Definition correctForm (this : Address4) : str :=
  join (js ".")
    (map String_of_number
       (map (fun part => parseInt part 10) (parsedAddress this))).

(** [fromHex(hex)]; the loop [for (i = 0; i < 8; i += 2)] runs for
    [i = 0, 2, 4, 6]. *)
Definition fromHex (hex : str) : Address4 :=
  let padded := padStart (remove_char ":"%char hex) 8 "0"%char in
  let groups :=
    map (fun i => parseInt (slice padded (Num i) (Num (i + 2))) 16) [0; 2; 4; 6] in
  new_Address4 (join (js ".") (map String_of_number groups)).

Definition fromInteger (integer : number) : Address4 :=
  fromHex (Number_toString 16 integer).

Definition toHex (this : Address4) : str :=
  join (js ":")
    (map (fun part => sprintf_02x (parseInt part 10)) (parsedAddress this)).

Definition toArray (this : Address4) : list number :=
  map (fun part => parseInt part 10) (parsedAddress this).

(** [bigInteger()]: [None] is the [null] the method returns. *)
Definition bigInteger (this : Address4) : option Z :=
  if negb (valid this) then None
  else Some (new_BigInteger
               (join []
                  (map (fun n => sprintf_02x (parseInt n 10)) (parsedAddress this)))
               16).

(** [binaryZeroPad()]: [this.bigInteger().toString(2)] raises on [null]. *)
Definition binaryZeroPad (this : Address4) : option str :=
  b <- bigInteger this ;;
  Some (padStart (BigInteger_toString b 2) BITS "0"%char).

Definition getBitsBase2 (this : Address4) (start stop : number) : option str :=
  s <- binaryZeroPad this ;;
  Some (slice s start stop).

(** [mask(mask?)]: [None] is the omitted argument. *)
Definition mask (this : Address4) (m : option number) : option str :=
  let m := match m with
           | None => subnetMask this
           | Some m => m
           end in
  getBitsBase2 this (Num 0) m.

Definition _startAddress (this : Address4) : option Z :=
  m <- mask this None ;;
  Some (new_BigInteger
          (m ++ repeat_str (js "0") (num_sub (Num BITS) (subnetMask this))) 2).

Definition _endAddress (this : Address4) : option Z :=
  m <- mask this None ;;
  Some (new_BigInteger
          (m ++ repeat_str (js "1") (num_sub (Num BITS) (subnetMask this))) 2).

Definition fromBigInteger (b : Z) : Address4 :=
  fromInteger (parseInt (BigInteger_toString b 10) 10).

Definition startAddress (this : Address4) : option Address4 :=
  b <- _startAddress this ;;
  Some (fromBigInteger b).

Definition startAddressExclusive (this : Address4) : option Address4 :=
  let adjust := new_BigInteger (js "1") 10 in
  b <- _startAddress this ;;
  Some (fromBigInteger (b + adjust)).

Definition endAddress (this : Address4) : option Address4 :=
  b <- _endAddress this ;;
  Some (fromBigInteger b).

Definition endAddressExclusive (this : Address4) : option Address4 :=
  let adjust := new_BigInteger (js "1") 10 in
  b <- _endAddress this ;;
  Some (fromBigInteger (b - adjust)).

(** Modelled from the spec: [common.isInSubnet], bound to the class as
    [isInSubnet]; the module [./common] is not part of the sources.  "The
    leading [other.subnetMaskBits] bits of [this]'s zero-padded binary form
    equal the leading [other.subnetMaskBits] bits of [other]'s zero-padded
    binary form." *)
Definition isInSubnet (this other : Address4) : option bool :=
  a <- mask this (Some (subnetMask other)) ;;
  b <- mask other None ;;
  Some (str_eqb a b).

Definition isMulticast (this : Address4) : option bool :=
  isInSubnet this (new_Address4 (js "224.0.0.0/4")).

(** sprintf-js [sprintf('%x', n)]: the argument as an unsigned 32-bit
    integer in hexadecimal, without padding. *)
Definition sprintf_x (n : number) : str :=
  digits 16 (toInteger n mod 2 ^ 32).

(** [this.parsedAddress[i]] as [parseInt] receives it: an index past the end
    of the array gives [undefined], which [parseInt] turns into the string
    "undefined". *)
Definition parsedAddress_at (this : Address4) (i : Z) : str :=
  nth (Z.to_nat i) (parsedAddress this) (js "undefined").

(** [toGroup6()]; the loop [for (i = 0; i < constants.GROUPS; i += 2)] runs
    for [i = 0, 2], and [sprintf('%02x%02x', x, y)] writes its two arguments
    one after the other. *)
Definition toGroup6 (this : Address4) : str :=
  join (js ":")
    (map (fun i =>
            let hex :=
              sprintf_02x (parseInt (parsedAddress_at this i) 10)
              ++ sprintf_02x (parseInt (parsedAddress_at this (i + 1)) 10) in
            sprintf_x (parseInt hex 16))
       [0; 2]).

(** ** Reference notions used in the statements *)

(** The big-endian bytes of a 32-bit value. *)
Definition bytes_of (v : Z) : list Z :=
  [v / 2 ^ 24; (v / 2 ^ 16) mod 256; (v / 2 ^ 8) mod 256; v mod 256].

(** The value of four bytes read big-endian. *)
Definition of_bytes (b : list Z) : Z :=
  fold_left (fun acc x => acc * 256 + x) b 0.

(** The dotted-decimal grammar, stated on the string. *)
Definition dotted_decimal (s : str) : Prop :=
  exists g0 g1 g2 g3,
    octet g0 = true /\ octet g1 = true /\ octet g2 = true /\ octet g3 = true /\
    s = g0 ++ js "." ++ g1 ++ js "." ++ g2 ++ js "." ++ g3.

(** The canonical decimal rendering of a group: its value, without leading
    zeros. *)
Definition canonical (g : str) : str := digits 10 (of_digits 10 g).

(** A lower-case hexadecimal digit, as [sprintf('%02x')] writes them. *)
Definition lower_hex (c : ascii) : bool :=
  existsb (Ascii.eqb c) (js "0123456789abcdef").

(** What the digit loop produces for [n]: a non-empty string of digits of
    the radix with value [n] and no leading zero. *)
Definition digits_of (r n : Z) (ds : str) : Prop :=
  ds <> [] /\ forallb (is_digit r) ds = true /\ of_digits r ds = n /\
  (n = 0 /\ len ds = 1 \/ r ^ (len ds - 1) <= n).

(** The object under construction once a suffix [ds] has been read. *)
Definition with_subnet (input ds : str) : Address4 :=
  let v := Num (of_digits 10 ds) in
  set_subnet (set_subnetMask (set_parsedSubnet (Address4_fields input) ds) v)
    ("/"%char :: String_of_number v).

(** [a] is valid and its parsed groups are four groups of the grammar. *)
Definition groups_of (a : Address4) (g0 g1 g2 g3 : str) : Prop :=
  valid a = true /\ parsedAddress a = [g0; g1; g2; g3] /\
  octet g0 = true /\ octet g1 = true /\ octet g2 = true /\ octet g3 = true.

(** The numbers [fromHex] reads from the padded string: the body of its
    loop at [i = 0, 2, 4, 6]. *)
Definition hex_groups (padded : str) : list number :=
  map (fun i => parseInt (slice padded (Num i) (Num (i + 2))) 16) [0; 2; 4; 6].

(** * Characters and digits *)

Ltac zb :=
  repeat match goal with
    | |- context [?a <=? ?b] => destruct (Z.leb_spec a b)
    | |- context [?a <? ?b] => destruct (Z.ltb_spec a b)
    | |- context [?a =? ?b] => destruct (Z.eqb_spec a b)
    end; cbn [andb orb negb]; try lia; try reflexivity.

Ltac zbh H :=
  repeat match type of H with
    | context [?a <=? ?b] => destruct (Z.leb_spec a b)
    | context [?a <? ?b] => destruct (Z.ltb_spec a b)
    | context [?a =? ?b] => destruct (Z.eqb_spec a b)
    end; cbn [andb orb negb] in H; try discriminate; try lia.

Lemma code_chr (z : Z) : 0 <= z < 256 -> code (chr z) = z.
Proof.
  intros H. unfold code, chr.
  rewrite N_ascii_embedding; lia.
Qed.

Lemma digit_val_digit_char (d : Z) :
  0 <= d < 36 -> digit_val (digit_char d) = Some d.
Proof.
  intros H. unfold digit_val, digit_char.
  destruct (Z.ltb_spec d 10); rewrite code_chr by lia; zb; f_equal; lia.
Qed.

Lemma is_digit_dval (r : Z) (c : ascii) :
  is_digit r c = true -> digit_val c = Some (dval c) /\ 0 <= dval c < r.
Proof.
  unfold is_digit, dval. destruct (digit_val c) as [d|] eqn:E; [|discriminate].
  intros H. split; [reflexivity|].
  apply Z.ltb_lt in H. split; [|assumption].
  unfold digit_val in E. zbh E; inversion E; lia.
Qed.

Lemma is_digit_code (r : Z) (c : ascii) :
  is_digit r c = true ->
  48 <= code c <= 57 \/ 97 <= code c <= 122 \/ 65 <= code c <= 90.
Proof.
  unfold is_digit, digit_val. intros H. zbh H.
Qed.

Lemma is_digit_neq (r : Z) (c x : ascii) :
  is_digit r c = true -> is_digit r x = false -> Ascii.eqb c x = false.
Proof.
  intros H Hx. destruct (Ascii.eqb_spec c x) as [->|]; [|reflexivity].
  congruence.
Qed.

Lemma is_digit_not_space (r : Z) (c : ascii) :
  is_digit r c = true -> is_space c = false.
Proof.
  intros H. apply is_digit_code in H. unfold is_space. zb.
Qed.

Lemma len_cons (c : ascii) (s : str) : len (c :: s) = len s + 1.
Proof. unfold len. simpl List.length. lia. Qed.

Lemma len_app (a b : str) : len (a ++ b) = len a + len b.
Proof. unfold len. rewrite length_app. lia. Qed.

Lemma len_single (c : ascii) : len [c] = 1.
Proof. reflexivity. Qed.

Lemma len_nonneg (s : str) : 0 <= len s.
Proof. unfold len. lia. Qed.

Lemma len_repeat (c : ascii) (k : nat) : len (repeat c k) = Z.of_nat k.
Proof. unfold len. now rewrite repeat_length. Qed.

Section Radix.

Variable r : Z.
Hypothesis Hr : 2 <= r <= 36.

Lemma fold_digits_acc (s : str) (acc : Z) :
  fold_left (fun a c => a * r + dval c) s acc = acc * r ^ len s + of_digits r s.
Proof.
  revert acc. induction s as [|c s IH]; intros acc.
  - unfold of_digits, len. simpl. lia.
  - unfold of_digits. cbn [fold_left]. rewrite (IH (acc * r + dval c)), (IH (0 * r + dval c)).
    rewrite len_cons, Z.pow_add_r by (pose proof (len_nonneg s); lia).
    ring.
Qed.

Lemma of_digits_cons (c : ascii) (s : str) :
  of_digits r (c :: s) = dval c * r ^ len s + of_digits r s.
Proof.
  unfold of_digits at 1. cbn [fold_left]. rewrite fold_digits_acc. ring.
Qed.

Lemma of_digits_single (c : ascii) : of_digits r [c] = dval c.
Proof. unfold of_digits. cbn [fold_left]. lia. Qed.

Lemma of_digits_app (a b : str) :
  of_digits r (a ++ b) = of_digits r a * r ^ len b + of_digits r b.
Proof.
  unfold of_digits at 1. rewrite fold_left_app.
  now rewrite fold_digits_acc.
Qed.

Lemma of_digits_bound (s : str) :
  forallb (is_digit r) s = true -> 0 <= of_digits r s < r ^ len s.
Proof.
  induction s as [|c s IH]; intros H.
  - unfold of_digits, len. simpl. lia.
  - simpl in H. apply andb_true_iff in H as [Hc Hs].
    apply is_digit_dval in Hc as [_ Hc]. specialize (IH Hs).
    rewrite of_digits_cons, len_cons, Z.pow_add_r by (pose proof (len_nonneg s); lia).
    rewrite Z.pow_1_r. nia.
Qed.

Lemma of_digits_zeros (k : nat) : of_digits r (repeat "0"%char k) = 0.
Proof.
  induction k as [|k IH]; [reflexivity|].
  simpl repeat. rewrite of_digits_cons, IH. reflexivity.
Qed.

Lemma is_digit_digit_char (d : Z) : 0 <= d < r -> is_digit r (digit_char d) = true.
Proof.
  intros H. unfold is_digit. rewrite digit_val_digit_char by lia.
  apply Z.ltb_lt. lia.
Qed.

Lemma dval_digit_char (d : Z) : 0 <= d < r -> dval (digit_char d) = d.
Proof.
  intros H. unfold dval. now rewrite digit_val_digit_char by lia.
Qed.

Lemma digits_of_one (n : Z) : 0 <= n < r -> digits_of r n [digit_char n].
Proof.
  intros H. repeat split.
  - discriminate.
  - simpl. now rewrite is_digit_digit_char.
  - rewrite of_digits_single. apply dval_digit_char. lia.
  - rewrite len_single. replace (1 - 1) with 0 by lia. rewrite Z.pow_0_r. lia.
Qed.

Lemma digits_of_snoc (n : Z) (ds : str) :
  0 < n / r -> 0 <= n -> digits_of r (n / r) ds ->
  digits_of r n (ds ++ [digit_char (n mod r)]).
Proof.
  intros Hq Hn (Hne & Hall & Hval & Hlen).
  pose proof (Z.mod_pos_bound n r ltac:(lia)) as Hm.
  pose proof (Z.div_mod n r ltac:(lia)) as Hdm.
  repeat split.
  - destruct ds; discriminate.
  - rewrite forallb_app, Hall. simpl. now rewrite is_digit_digit_char.
  - rewrite of_digits_app, Hval, len_single, of_digits_single, Z.pow_1_r.
    rewrite dval_digit_char by lia. lia.
  - right. rewrite len_app, len_single.
    replace (len ds + 1 - 1) with (len ds) by lia.
    destruct Hlen as [[H0 _]|Hlen]; [lia|].
    assert (Hl : 1 <= len ds).
    { destruct ds; [congruence|]. rewrite len_cons. pose proof (len_nonneg ds). lia. }
    replace (len ds) with (1 + (len ds - 1)) by lia.
    rewrite Z.pow_add_r, Z.pow_1_r by lia. nia.
Qed.

Lemma digits_aux_spec (f : nat) :
  forall n acc, 0 <= n < r ^ Z.of_nat (S f) ->
    exists ds, digits_aux (S f) r n acc = ds ++ acc /\ digits_of r n ds.
Proof.
  induction f as [|f IH]; intros n acc Hn.
  - change (Z.of_nat 1) with 1 in Hn. rewrite Z.pow_1_r in Hn.
    exists [digit_char n]. split; [|now apply digits_of_one].
    simpl. rewrite Z.div_small, Z.mod_small by lia. reflexivity.
  - remember (S f) as f1 eqn:Ef. simpl.
    destruct (Z.eqb_spec (n / r) 0) as [E|E].
    + assert (Hs : n < r).
      { pose proof (Z.div_mod n r ltac:(lia)).
        pose proof (Z.mod_pos_bound n r ltac:(lia)). nia. }
      exists [digit_char n]. split; [|apply digits_of_one; lia].
      rewrite Z.mod_small by lia. reflexivity.
    + assert (Hq : 0 < n / r).
      { pose proof (Z.div_pos n r ltac:(lia) ltac:(lia)). lia. }
      assert (Hb : 0 <= n / r < r ^ Z.of_nat f1).
      { split; [lia|]. apply Z.div_lt_upper_bound; [lia|].
        replace (Z.of_nat (S f1)) with (1 + Z.of_nat f1) in Hn by lia.
        rewrite Z.pow_add_r, Z.pow_1_r in Hn by lia. lia. }
      subst f1.
      destruct (IH (n / r) (digit_char (n mod r) :: acc) Hb) as (ds & Heq & Hds).
      exists (ds ++ [digit_char (n mod r)]). split.
      * rewrite Heq, <- app_assoc. reflexivity.
      * apply digits_of_snoc; [assumption|lia|assumption].
Qed.

Lemma digits_spec (n : Z) : 0 <= n -> digits_of r n (digits r n).
Proof.
  intros Hn. unfold digits.
  destruct (digits_aux_spec (Z.to_nat (Z.log2 n)) n []) as (ds & Heq & Hds).
  - split; [assumption|].
    pose proof (Z.log2_nonneg n) as Hl.
    replace (Z.of_nat (S (Z.to_nat (Z.log2 n)))) with (Z.succ (Z.log2 n)) by lia.
    destruct (Z.eq_dec n 0) as [->|Hnz].
    + simpl. lia.
    + pose proof (Z.log2_spec n ltac:(lia)) as [_ Hlt].
      eapply Z.lt_le_trans; [exact Hlt|].
      apply Z.pow_le_mono_l. lia.
  - rewrite Heq, app_nil_r. exact Hds.
Qed.

Lemma digits_value (n : Z) : 0 <= n -> of_digits r (digits r n) = n.
Proof. intros H. apply (digits_spec n H). Qed.

Lemma digits_all (n : Z) : 0 <= n -> forallb (is_digit r) (digits r n) = true.
Proof. intros H. apply (digits_spec n H). Qed.

Lemma digits_nonempty (n : Z) : 0 <= n -> digits r n <> [].
Proof. intros H. apply (digits_spec n H). Qed.

(** A value below [r^k] has at most [k] digits. *)
Lemma digits_len_le (n k : Z) :
  1 <= k -> 0 <= n < r ^ k -> len (digits r n) <= k.
Proof.
  intros Hk Hn. destruct (digits_spec n ltac:(lia)) as (_ & _ & _ & [[_ H1]|Hl]).
  - lia.
  - destruct (Z.le_gt_cases (len (digits r n)) k) as [|Hgt]; [assumption|exfalso].
    assert (r ^ k <= r ^ (len (digits r n) - 1)) by (apply Z.pow_le_mono_r; lia).
    lia.
Qed.

(** A value of at least [r^k] has more than [k] digits. *)
Lemma digits_len_gt (n k : Z) :
  0 <= k -> r ^ k <= n -> k < len (digits r n).
Proof.
  intros Hk Hn.
  assert (H0 : 0 <= n) by (pose proof (Z.pow_pos_nonneg r k ltac:(lia) Hk); lia).
  pose proof (of_digits_bound (digits r n) (digits_all n H0)) as Hb.
  rewrite digits_value in Hb by assumption.
  destruct (Z.le_gt_cases (len (digits r n)) k) as [Hle|]; [exfalso|lia].
  assert (r ^ len (digits r n) <= r ^ k).
  { apply Z.pow_le_mono_r; [lia|]. lia. }
  lia.
Qed.

End Radix.

(** * [parseInt], [padStart] and [slice] on digit strings *)

Lemma forallb_repeat {A : Type} (p : A -> bool) (x : A) (k : nat) :
  p x = true -> forallb p (repeat x k) = true.
Proof.
  intros H. induction k as [|k IH]; simpl; [reflexivity|].
  now rewrite H, IH.
Qed.

Lemma take_digits_all (r : Z) (s : str) :
  forallb (is_digit r) s = true -> take_digits r s = s.
Proof.
  induction s as [|c s IH]; simpl; [reflexivity|].
  intros H. apply andb_true_iff in H as [Hc Hs].
  now rewrite Hc, IH.
Qed.

Lemma take_digits_stop (r : Z) (s : str) (c : ascii) (t : str) :
  forallb (is_digit r) s = true -> is_digit r c = false ->
  take_digits r (s ++ c :: t) = s.
Proof.
  intros Hs Hc. induction s as [|x s IH]; simpl.
  - now rewrite Hc.
  - simpl in Hs. apply andb_true_iff in Hs as [Hx Hs].
    now rewrite Hx, IH.
Qed.

Lemma take_digits_prefix (r : Z) (s : str) :
  s = take_digits r s ++ skipn (List.length (take_digits r s)) s.
Proof.
  induction s as [|c s IH]; simpl; [reflexivity|].
  destruct (is_digit r c); simpl; [|reflexivity].
  now rewrite <- IH.
Qed.

Lemma strip_hex_prefix_digits (r : Z) (s : str) :
  forallb (is_digit r) s = true -> strip_hex_prefix r s = s.
Proof.
  intros H. unfold strip_hex_prefix.
  destruct (Z.eqb_spec r 16) as [->|]; [|reflexivity].
  destruct s as [|c [|x t]]; try reflexivity.
  simpl in H. apply andb_true_iff in H as [_ H]. apply andb_true_iff in H as [Hx _].
  rewrite (is_digit_neq 16 x "x"%char), (is_digit_neq 16 x "X"%char)
    by (assumption || reflexivity).
  now rewrite andb_false_r.
Qed.

Lemma parse_unsigned_digits (r : Z) (s : str) :
  s <> [] -> forallb (is_digit r) s = true ->
  parse_unsigned r s = Num (of_digits r s).
Proof.
  intros Hne H. unfold parse_unsigned.
  rewrite strip_hex_prefix_digits, take_digits_all by assumption.
  destruct s; [congruence|reflexivity].
Qed.

(** [parseInt] reads a non-empty digit string as its positional value. *)
Lemma parseInt_digits (r : Z) (s : str) :
  s <> [] -> forallb (is_digit r) s = true ->
  parseInt s r = Num (of_digits r s).
Proof.
  intros Hne H. unfold parseInt.
  destruct s as [|c t]; [congruence|].
  assert (Hc : is_digit r c = true).
  { simpl in H. now apply andb_true_iff in H as [Hc _]. }
  simpl. rewrite (is_digit_not_space r c Hc).
  rewrite (is_digit_neq r c "-"%char), (is_digit_neq r c "+"%char)
    by (assumption || reflexivity).
  now apply parse_unsigned_digits.
Qed.

Lemma is_digit_zero (r : Z) : 0 < r -> is_digit r "0"%char = true.
Proof.
  intros H. unfold is_digit. simpl. now apply Z.ltb_lt.
Qed.

Section Padding.

Variable r : Z.
Hypothesis Hr : 2 <= r <= 36.

(** Zero-padding the digits of a value below [r^k] gives exactly [k]
    digits with the same value. *)
Lemma padStart_digits (n k : Z) :
  1 <= k -> 0 <= n < r ^ k ->
  len (padStart (digits r n) k "0"%char) = k /\
  forallb (is_digit r) (padStart (digits r n) k "0"%char) = true /\
  of_digits r (padStart (digits r n) k "0"%char) = n.
Proof.
  intros Hk Hn.
  pose proof (digits_len_le r Hr n k Hk Hn) as Hle.
  pose proof (digits_all r Hr n ltac:(lia)) as Hall.
  pose proof (digits_value r Hr n ltac:(lia)) as Hval.
  unfold padStart. destruct (Z.leb_spec k (len (digits r n))) as [H|H].
  - repeat split; try assumption. lia.
  - repeat split.
    + rewrite len_app, len_repeat. lia.
    + rewrite forallb_app, Hall, forallb_repeat; [reflexivity|].
      apply is_digit_zero. lia.
    + rewrite of_digits_app, of_digits_zeros. lia.
Qed.

(** The leading [k] digits of a digit string are the quotient by the
    weight of the digits dropped. *)
Lemma of_digits_firstn (s : str) (k : nat) :
  forallb (is_digit r) s = true -> (k <= List.length s)%nat ->
  of_digits r (firstn k s) = of_digits r s / r ^ (len s - Z.of_nat k).
Proof.
  intros Hall Hk.
  rewrite <- (firstn_skipn k s) at 2.
  rewrite <- (firstn_skipn k s) in Hall.
  rewrite forallb_app in Hall. apply andb_true_iff in Hall as [_ Hsk].
  apply (of_digits_bound r Hr) in Hsk.
  rewrite of_digits_app.
  assert (El : len (skipn k s) = len s - Z.of_nat k).
  { unfold len. rewrite length_skipn. lia. }
  rewrite El in *.
  rewrite Z.div_add_l, Z.div_small by lia. lia.
Qed.

Lemma of_digits_ones (k : nat) :
  r = 2 -> of_digits r (repeat "1"%char k) = 2 ^ Z.of_nat k - 1.
Proof.
  intros ->. induction k as [|k IH]; [reflexivity|].
  simpl repeat. rewrite of_digits_cons, IH, len_repeat.
  change (dval "1"%char) with 1.
  replace (Z.of_nat (S k)) with (Z.of_nat k + 1) by lia.
  rewrite Z.pow_add_r by lia. lia.
Qed.

End Padding.

Lemma slice_firstn_skipn (s : str) (i j : Z) :
  0 <= i <= j -> j <= len s ->
  slice s (Num i) (Num j) = firstn (Z.to_nat (j - i)) (skipn (Z.to_nat i) s).
Proof.
  intros Hi Hj. unfold slice, toInteger.
  destruct (Z.ltb_spec i 0); [lia|]. destruct (Z.ltb_spec j 0); [lia|].
  now rewrite !Z.min_l by lia.
Qed.

Lemma slice_prefix (s : str) (j : Z) :
  0 <= j <= len s -> slice s (Num 0) (Num j) = firstn (Z.to_nat j) s.
Proof.
  intros H. rewrite slice_firstn_skipn by lia.
  now rewrite Z.sub_0_r.
Qed.

Lemma repeat_str_char (c : ascii) (k : Z) :
  0 <= k -> repeat_str [c] (Num k) = repeat c (Z.to_nat k).
Proof.
  intros H. unfold repeat_str, toInteger.
  destruct (Z.ltb_spec k 1).
  - replace k with 0 by lia. reflexivity.
  - induction (Z.to_nat k) as [|n IH]; [reflexivity|].
    simpl. now rewrite IH.
Qed.

Lemma new_BigInteger_digits (r : Z) (s : str) :
  forallb (is_digit r) s = true -> new_BigInteger s r = of_digits r s.
Proof.
  intros H. unfold new_BigInteger.
  assert (Hf : filter (fun c => match digit_val c with Some _ => true | None => false end) s = s).
  { apply forallb_filter_id. rewrite forallb_forall in *. intros c Hc.
    specialize (H c Hc). apply is_digit_dval in H as [-> _]. reflexivity. }
  rewrite Hf.
  destruct s as [|c t]; [reflexivity|].
  simpl in H. apply andb_true_iff in H as [Hc _].
  simpl. apply is_digit_dval in Hc as [-> _]. reflexivity.
Qed.

(** * [split] and [join] *)

Lemma split_no_sep (sep : ascii) (g : str) :
  ~ In sep g -> split sep g = [g].
Proof.
  induction g as [|c g IH]; simpl; intros H; [reflexivity|].
  destruct (Ascii.eqb_spec c sep) as [->|_].
  - exfalso. apply H. now left.
  - rewrite IH; [reflexivity|]. intros Hin. apply H. now right.
Qed.

Lemma split_app_sep (sep : ascii) (g rest : str) :
  ~ In sep g -> split sep (g ++ sep :: rest) = g :: split sep rest.
Proof.
  induction g as [|c g IH]; simpl; intros H.
  - now rewrite Ascii.eqb_refl.
  - destruct (Ascii.eqb_spec c sep) as [->|_].
    + exfalso. apply H. now left.
    + rewrite IH; [reflexivity|]. intros Hin. apply H. now right.
Qed.

Lemma join_cons2 (sep x y : str) (t : list str) :
  join sep (x :: y :: t) = x ++ sep ++ join sep (y :: t).
Proof. reflexivity. Qed.

(** Splitting a joined array gives the array back when no element contains
    the separator. *)
Lemma split_join (sep : ascii) (gs : list str) :
  gs <> [] -> Forall (fun g => ~ In sep g) gs ->
  split sep (join [sep] gs) = gs.
Proof.
  induction gs as [|g gs IH]; [congruence|].
  intros _ HF. inversion HF as [|? ? Hg Hgs]; subst.
  destruct gs as [|g' t].
  - simpl. now apply split_no_sep.
  - rewrite join_cons2. change ([sep] ++ join [sep] (g' :: t)) with (sep :: join [sep] (g' :: t)).
    rewrite split_app_sep by assumption.
    rewrite IH; [reflexivity|discriminate|assumption].
Qed.

(** [split] returns one more token than the string has separators. *)
Lemma split_length (sep : ascii) (s : str) :
  List.length (split sep s) = S (count_occ ascii_dec s sep).
Proof.
  induction s as [|c s IH]; [reflexivity|].
  simpl. destruct (Ascii.eqb_spec c sep) as [E|E]; destruct (ascii_dec c sep) as [E'|E'];
    try contradiction.
  - simpl. now rewrite IH.
  - destruct (split sep s); simpl in *; congruence.
Qed.

Lemma digits_no_char (r : Z) (s : str) (x : ascii) :
  forallb (is_digit r) s = true -> is_digit r x = false -> ~ In x s.
Proof.
  intros H Hx Hin. rewrite forallb_forall in H. specialize (H x Hin). congruence.
Qed.

(** * The patterns *)

Lemma octet_spec (g : str) :
  octet g = true <->
  g <> [] /\ len g <= 3 /\ forallb (is_digit 10) g = true /\ of_digits 10 g <= 255.
Proof.
  unfold octet. rewrite !andb_true_iff, negb_true_iff, Z.leb_le, Z.leb_le.
  split.
  - intros [[[H1 H2] H3] H4]. repeat split; try assumption.
    intros ->. discriminate.
  - intros (H1 & H2 & H3 & H4). repeat split; try assumption.
    destruct g; [congruence|reflexivity].
Qed.

Lemma octet_digits (g : str) : octet g = true -> forallb (is_digit 10) g = true.
Proof. intros H. now apply octet_spec in H. Qed.

Lemma octet_no_dot (g : str) : octet g = true -> ~ In "."%char g.
Proof.
  intros H. apply (digits_no_char 10); [now apply octet_digits|reflexivity].
Qed.

Lemma RE_ADDRESS_groups_sound (n : nat) :
  forall s, RE_ADDRESS_groups n s = true ->
    exists gs, List.length gs = n /\ Forall (fun g => octet g = true) gs /\
               s = join (js ".") gs.
Proof.
  induction n as [|n IH]; intros s H; [discriminate|].
  simpl in H. apply andb_true_iff in H as [Hoct H].
  pose proof (take_digits_prefix 10 s) as Hs.
  destruct n as [|n].
  - destruct (skipn _ s) as [|c t] eqn:E; [|discriminate].
    exists [take_digits 10 s]. repeat split.
    + constructor; [assumption|constructor].
    + simpl. rewrite app_nil_r in Hs. exact Hs.
  - destruct (skipn _ s) as [|c t] eqn:E; [discriminate|].
    destruct (Ascii.eqb_spec c "."%char) as [->|Hc].
    + destruct (IH t H) as (gs & Hlen & Hall & Ht).
      exists (take_digits 10 s :: gs). repeat split.
      * simpl. now rewrite Hlen.
      * now constructor.
      * destruct gs as [|g gs]; [discriminate|].
        rewrite join_cons2, <- Ht. exact Hs.
    + exfalso. destruct c as [[] [] [] [] [] [] [] []]; try discriminate H.
      now apply Hc.
Qed.

Lemma RE_ADDRESS_groups_complete (gs : list str) :
  gs <> [] -> Forall (fun g => octet g = true) gs ->
  RE_ADDRESS_groups (List.length gs) (join (js ".") gs) = true.
Proof.
  induction gs as [|g gs IH]; [congruence|].
  intros _ HF. inversion HF as [|? ? Hg Hgs]; subst.
  pose proof (octet_digits g Hg) as Hd.
  destruct gs as [|g' t].
  - simpl. rewrite take_digits_all, Hg by assumption.
    now rewrite skipn_all.
  - rewrite join_cons2.
    change (js "." ++ join (js ".") (g' :: t)) with ("."%char :: join (js ".") (g' :: t)).
    cbn [List.length RE_ADDRESS_groups].
    rewrite take_digits_stop by (assumption || reflexivity).
    rewrite Hg, skipn_app, skipn_all, Nat.sub_diag. simpl.
    apply IH; [discriminate|assumption].
Qed.

(** The scanner accepts exactly the strings of the grammar. *)
Lemma RE_ADDRESS_match_iff (s : str) :
  RE_ADDRESS_match s = true <-> dotted_decimal s.
Proof.
  unfold RE_ADDRESS_match, dotted_decimal. split.
  - intros H. apply RE_ADDRESS_groups_sound in H as (gs & Hlen & Hall & Hs).
    destruct gs as [|g0 [|g1 [|g2 [|g3 [|]]]]]; try discriminate Hlen.
    inversion Hall as [|? ? H0 Hall1]; subst.
    inversion Hall1 as [|? ? H1 Hall2]; subst.
    inversion Hall2 as [|? ? H2 Hall3]; subst.
    inversion Hall3 as [|? ? H3 _]; subst.
    exists g0, g1, g2, g3. repeat split; assumption.
  - intros (g0 & g1 & g2 & g3 & H0 & H1 & H2 & H3 & ->).
    apply (RE_ADDRESS_groups_complete [g0; g1; g2; g3]); [discriminate|].
    repeat constructor; assumption.
Qed.

Lemma is_subnet_suffix_spec (s : str) :
  is_subnet_suffix s = true ->
  exists ds, s = "/"%char :: ds /\ ds <> [] /\ forallb (is_digit 10) ds = true.
Proof.
  destruct s as [|c t]; [discriminate|]. simpl.
  rewrite !andb_true_iff, negb_true_iff. intros [[Hc Hn] Hd].
  apply Ascii.eqb_eq in Hc. subst c. exists t. repeat split; try assumption.
  intros ->. discriminate.
Qed.

(** A match of the subnet pattern is the tail of the string from its last
    ["/"] on, and [replace] leaves what is before it. *)
Lemma RE_SUBNET_STRING_exec_Some (s m : str) :
  RE_SUBNET_STRING_exec s = Some m ->
  exists ds, m = "/"%char :: ds /\ ds <> [] /\ forallb (is_digit 10) ds = true /\
             s = RE_SUBNET_STRING_strip s ++ m.
Proof.
  induction s as [|c t IH]; [discriminate|].
  cbn [RE_SUBNET_STRING_exec RE_SUBNET_STRING_strip].
  destruct (is_subnet_suffix (c :: t)) eqn:E.
  - intros [= <-]. apply is_subnet_suffix_spec in E as (ds & Hs & Hne & Hd).
    exists ds. repeat split; assumption.
  - intros H. destruct (IH H) as (ds & Hm & Hne & Hd & Ht).
    exists ds. repeat split; try assumption.
    simpl. now rewrite <- Ht.
Qed.

Lemma RE_SUBNET_STRING_exec_no_slash (s : str) :
  ~ In "/"%char s -> RE_SUBNET_STRING_exec s = None.
Proof.
  induction s as [|c t IH]; [reflexivity|].
  intros H. cbn [RE_SUBNET_STRING_exec].
  destruct (is_subnet_suffix (c :: t)) eqn:E.
  - apply is_subnet_suffix_spec in E as (ds & [= -> _] & _).
    exfalso. apply H. now left.
  - apply IH. intros Hin. apply H. now right.
Qed.

Lemma remove_first_head (c : ascii) (s : str) : remove_first c (c :: s) = s.
Proof. simpl. now rewrite Ascii.eqb_refl. Qed.

Lemma RE_SUBNET_STRING_suffix (p ds : str) :
  ds <> [] -> forallb (is_digit 10) ds = true ->
  RE_SUBNET_STRING_exec (p ++ "/"%char :: ds) = Some ("/"%char :: ds) /\
  RE_SUBNET_STRING_strip (p ++ "/"%char :: ds) = p.
Proof.
  intros Hne Hd.
  assert (Hm : is_subnet_suffix ("/"%char :: ds) = true).
  { simpl. rewrite Hd. destruct ds; [congruence|reflexivity]. }
  induction p as [|c p [IH1 IH2]].
  - simpl app. cbn [RE_SUBNET_STRING_exec RE_SUBNET_STRING_strip].
    now rewrite Hm.
  - change ((c :: p) ++ "/"%char :: ds) with (c :: (p ++ "/"%char :: ds)).
    cbn [RE_SUBNET_STRING_exec RE_SUBNET_STRING_strip].
    assert (Hc : is_subnet_suffix (c :: p ++ "/"%char :: ds) = false).
    { cbn [is_subnet_suffix]. rewrite forallb_app. cbn [forallb].
      change (is_digit 10 "/"%char) with false.
      now rewrite andb_false_r, andb_false_r. }
    rewrite Hc, IH1, IH2. split; reflexivity.
Qed.

(** * The constructor *)

Lemma Address4_parse_groups_spec (this : Address4) (s : str) :
  let a := Address4_parse_groups this s in
  address a = address this /\
  addressMinusSuffix a = Some s /\
  parsedAddress a = split "."%char s /\
  parsedSubnet a = parsedSubnet this /\
  subnet a = subnet this /\
  subnetMask a = subnetMask this /\
  valid a = (RE_ADDRESS_match s || valid this) /\
  error a = (if RE_ADDRESS_match s then error this
             else Some (js "Invalid IPv4 address.")).
Proof.
  unfold Address4_parse_groups, parse.
  destruct (RE_ADDRESS_match s); cbn; repeat split; reflexivity.
Qed.

Lemma new_Address4_no_suffix (input : str) :
  RE_SUBNET_STRING_exec input = None ->
  new_Address4 input = Address4_parse_groups (Address4_fields input) input.
Proof.
  intros H. unfold new_Address4. now rewrite H.
Qed.

Lemma new_Address4_suffix (p ds : str) :
  ds <> [] -> forallb (is_digit 10) ds = true ->
  new_Address4 (p ++ "/"%char :: ds) =
    let this := with_subnet (p ++ "/"%char :: ds) ds in
    if 32 <? of_digits 10 ds
    then set_error (set_valid this false) (Some (js "Invalid subnet mask."))
    else Address4_parse_groups this p.
Proof.
  intros Hne Hd.
  destruct (RE_SUBNET_STRING_suffix p ds Hne Hd) as [He Hs].
  pose proof (of_digits_bound 10 ltac:(lia) ds Hd) as [Hv _].
  unfold new_Address4. rewrite He, Hs, remove_first_head.
  cbn [parsedSubnet set_parsedSubnet subnetMask set_subnetMask set_subnet].
  rewrite (parseInt_digits 10 ds Hne Hd).
  unfold with_subnet, num_ltb, BITS.
  destruct (Z.ltb_spec (of_digits 10 ds) 0); [lia|].
  reflexivity.
Qed.

(** Every input either has no suffix or ends with ["/"] and digits. *)
Lemma input_cases (input : str) :
  RE_SUBNET_STRING_exec input = None \/
  exists p ds, input = p ++ "/"%char :: ds /\ ds <> [] /\
               forallb (is_digit 10) ds = true.
Proof.
  destruct (RE_SUBNET_STRING_exec input) as [m|] eqn:E; [right|now left].
  apply RE_SUBNET_STRING_exec_Some in E as (ds & -> & Hne & Hd & Hs).
  exists (RE_SUBNET_STRING_strip input), ds. repeat split; assumption.
Qed.

(** What construction leaves behind once the groups have been parsed. *)
Lemma new_Address4_parsed (input s : str) :
  addressMinusSuffix (new_Address4 input) = Some s ->
  let a := new_Address4 input in
  parsedAddress a = split "."%char s /\
  valid a = RE_ADDRESS_match s /\
  error a = (if RE_ADDRESS_match s then None else Some (js "Invalid IPv4 address.")) /\
  exists m, subnetMask a = Num m /\ 0 <= m <= 32.
Proof.
  destruct (input_cases input) as [Hn|(p & ds & -> & Hne & Hd)].
  - rewrite (new_Address4_no_suffix input Hn).
    pose proof (Address4_parse_groups_spec (Address4_fields input) input)
      as (_ & Hms & Hpa & _ & _ & Hm & Hv & He).
    cbv zeta in *. rewrite Hms. intros [= <-].
    rewrite Hpa, Hv, He, Hm. cbn [valid error subnetMask Address4_fields].
    rewrite orb_false_r. repeat split. exists 32. split; [reflexivity|lia].
  - rewrite (new_Address4_suffix p ds Hne Hd). cbv zeta.
    destruct (Z.ltb_spec 32 (of_digits 10 ds)) as [Hgt|Hle].
    + cbn. discriminate.
    + pose proof (Address4_parse_groups_spec
                    (with_subnet (p ++ "/"%char :: ds) ds) p)
        as (_ & Hms & Hpa & _ & _ & Hm & Hv & He).
      cbv zeta in *. rewrite Hms. intros [= <-].
      rewrite Hpa, Hv, He, Hm. cbn [valid error subnetMask with_subnet
        set_subnet set_subnetMask set_parsedSubnet Address4_fields].
      rewrite orb_false_r. repeat split.
      exists (of_digits 10 ds). split; [reflexivity|].
      pose proof (of_digits_bound 10 ltac:(lia) ds Hd). lia.
Qed.

(** A valid object went through group parsing. *)
Lemma new_Address4_valid (input : str) :
  valid (new_Address4 input) = true ->
  exists s, addressMinusSuffix (new_Address4 input) = Some s.
Proof.
  destruct (input_cases input) as [Hn|(p & ds & -> & Hne & Hd)].
  - rewrite (new_Address4_no_suffix input Hn). intros _.
    exists input. apply Address4_parse_groups_spec.
  - rewrite (new_Address4_suffix p ds Hne Hd). cbv zeta.
    destruct (32 <? of_digits 10 ds).
    + cbn. discriminate.
    + intros _. exists p. apply Address4_parse_groups_spec.
Qed.

(** The suffix-free part is the whole input when there is no suffix, and
    what precedes the suffix when its value is at most 32. *)
Lemma addressMinusSuffix_cases (input s : str) :
  addressMinusSuffix (new_Address4 input) = Some s <->
  (RE_SUBNET_STRING_exec input = None /\ s = input) \/
  (exists ds, input = s ++ "/"%char :: ds /\ ds <> [] /\
              forallb (is_digit 10) ds = true /\ of_digits 10 ds <= 32).
Proof.
  split.
  - destruct (input_cases input) as [Hn|(p & ds & -> & Hne & Hd)].
    + rewrite (new_Address4_no_suffix input Hn).
      pose proof (Address4_parse_groups_spec (Address4_fields input) input)
        as (_ & Hms & _).
      cbv zeta in Hms. rewrite Hms. intros [= <-]. left. now split.
    + rewrite (new_Address4_suffix p ds Hne Hd). cbv zeta.
      destruct (Z.ltb_spec 32 (of_digits 10 ds)) as [Hgt|Hle].
      * cbn. discriminate.
      * pose proof (Address4_parse_groups_spec
                      (with_subnet (p ++ "/"%char :: ds) ds) p) as (_ & Hms & _).
        cbv zeta in Hms. rewrite Hms. intros [= <-].
        right. exists ds. repeat split; assumption.
  - intros [[Hn ->]|(ds & -> & Hne & Hd & Hle)].
    + rewrite (new_Address4_no_suffix input Hn).
      apply Address4_parse_groups_spec.
    + rewrite (new_Address4_suffix s ds Hne Hd). cbv zeta.
      destruct (Z.ltb_spec 32 (of_digits 10 ds)); [lia|].
      apply Address4_parse_groups_spec.
Qed.

Lemma String_of_number_nonneg (v : Z) : 0 <= v -> String_of_number (Num v) = digits 10 v.
Proof.
  intros H. unfold String_of_number, Number_toString.
  destruct (Z.ltb_spec v 0); [lia|reflexivity].
Qed.

Lemma parseInt_octet (g : str) :
  octet g = true -> parseInt g 10 = Num (of_digits 10 g) /\ 0 <= of_digits 10 g <= 255.
Proof.
  intros H. apply octet_spec in H as (Hne & _ & Hd & Hv).
  split; [now apply parseInt_digits|].
  pose proof (of_digits_bound 10 ltac:(lia) g Hd). lia.
Qed.

Lemma canonical_octet (g : str) :
  octet g = true -> String_of_number (parseInt g 10) = canonical g.
Proof.
  intros H. apply parseInt_octet in H as [-> Hv].
  apply String_of_number_nonneg. lia.
Qed.

(** The groups of a valid object are the four groups of the grammar. *)
Lemma valid_groups (input : str) :
  valid (new_Address4 input) = true ->
  exists g0 g1 g2 g3,
    octet g0 = true /\ octet g1 = true /\ octet g2 = true /\ octet g3 = true /\
    parsedAddress (new_Address4 input) = [g0; g1; g2; g3] /\
    addressMinusSuffix (new_Address4 input)
      = Some (g0 ++ js "." ++ g1 ++ js "." ++ g2 ++ js "." ++ g3).
Proof.
  intros Hv. destruct (new_Address4_valid input Hv) as [s Hs].
  destruct (new_Address4_parsed input s Hs) as (Hpa & Hval & _).
  rewrite Hv in Hval. symmetry in Hval.
  apply RE_ADDRESS_match_iff in Hval as (g0 & g1 & g2 & g3 & H0 & H1 & H2 & H3 & ->).
  exists g0, g1, g2, g3. repeat split; try assumption.
  rewrite Hpa. apply (split_join "."%char [g0; g1; g2; g3]); [discriminate|].
  repeat constructor; now apply octet_no_dot.
Qed.

Lemma digit_val_zero (c : ascii) : digit_val c = Some 0 -> c = "0"%char.
Proof.
  unfold digit_val. intros H.
  assert (Hcode : code c = 48) by (zbh H; inversion H; lia).
  unfold code in Hcode. rewrite <- (ascii_N_embedding c).
  replace (N_of_ascii c) with 48%N by lia. reflexivity.
Qed.

(** The decimal rendering has no leading zero: it is ["0"] or starts with a
    non-zero digit. *)
Lemma digits_no_leading_zero (r n : Z) :
  2 <= r <= 36 -> 0 <= n ->
  (n = 0 /\ digits r n = js "0") \/
  (exists c t, digits r n = c :: t /\ dval c <> 0).
Proof.
  intros Hr Hn. destruct (digits_spec r Hr n Hn) as (Hne & Hall & Hval & Hlen).
  destruct (digits r n) as [|c t] eqn:E; [congruence|].
  simpl in Hall. apply andb_true_iff in Hall as [Hc Ht].
  apply is_digit_dval in Hc as [Hdv Hc].
  pose proof (of_digits_bound r Hr t Ht) as Hb.
  rewrite of_digits_cons in Hval by assumption. rewrite len_cons in Hlen.
  replace (len t + 1 - 1) with (len t) in Hlen by lia.
  destruct (Z.eq_dec (dval c) 0) as [Hz|Hz]; [left|right; now exists c, t].
  destruct Hlen as [[H0 Hl]|Hl]; [|nia].
  split; [assumption|].
  destruct t; [|rewrite len_cons in Hl; pose proof (len_nonneg t); lia].
  rewrite Hz in Hdv. now rewrite (digit_val_zero c Hdv).
Qed.

(** * Validation and canonical form *)

(** C3, as stated, fails when the constructor returns at the mask guard.
    The suffix-free part of "1.2.3.4/33" is "1.2.3.4", which is of the
    grammar, and the object is invalid; the suffix-free part of "1.2.3/33" is
    "1.2.3", which is not of the grammar, and the error is "Invalid subnet
    mask.", not "Invalid IPv4 address.". *)
Lemma validation_skipped_at_mask_guard :
  RE_SUBNET_STRING_strip (js "1.2.3.4/33") = js "1.2.3.4" /\
  dotted_decimal (js "1.2.3.4") /\
  isValid (new_Address4 (js "1.2.3.4/33")) = false /\
  RE_SUBNET_STRING_strip (js "1.2.3/33") = js "1.2.3" /\
  ~ dotted_decimal (js "1.2.3") /\
  isValid (new_Address4 (js "1.2.3/33")) = false /\
  error (new_Address4 (js "1.2.3/33")) = Some (js "Invalid subnet mask.") /\
  error (new_Address4 (js "1.2.3/33")) <> Some (js "Invalid IPv4 address.").
Proof.
  repeat split; try reflexivity.
  - apply RE_ADDRESS_match_iff. reflexivity.
  - intros H. apply RE_ADDRESS_match_iff in H. vm_compute in H. discriminate H.
  - vm_compute. discriminate.
Qed.

(** C3, amended.  When construction reaches group parsing, with suffix-free
    part [s] (the field [addressMinusSuffix], set exactly when the input has
    no subnet suffix or one of value at most 32): if [s] is four groups of
    one to three decimal digits of value at most 255 separated by periods,
    the object is valid and [correctForm()] is the four group values in
    decimal, without leading zeros, joined by periods; if [s] is not of that
    form, the object is invalid and its error is "Invalid IPv4 address.". *)
Theorem dotted_decimal_validation (input s : str) :
  addressMinusSuffix (new_Address4 input) = Some s ->
  (forall g0 g1 g2 g3,
      octet g0 = true -> octet g1 = true -> octet g2 = true -> octet g3 = true ->
      s = g0 ++ js "." ++ g1 ++ js "." ++ g2 ++ js "." ++ g3 ->
      isValid (new_Address4 input) = true /\
      correctForm (new_Address4 input)
        = canonical g0 ++ js "." ++ canonical g1 ++ js "." ++ canonical g2
          ++ js "." ++ canonical g3) /\
  (~ dotted_decimal s ->
      isValid (new_Address4 input) = false /\
      error (new_Address4 input) = Some (js "Invalid IPv4 address.")).
Proof.
  intros Hs. destruct (new_Address4_parsed input s Hs) as (Hpa & Hval & Herr & _).
  split.
  - intros g0 g1 g2 g3 H0 H1 H2 H3 E.
    assert (Hm : RE_ADDRESS_match s = true).
    { apply RE_ADDRESS_match_iff. exists g0, g1, g2, g3. repeat split; assumption. }
    unfold isValid, correctForm. rewrite Hval, Hpa, Hm. split; [reflexivity|].
    subst s.
    change (g0 ++ js "." ++ g1 ++ js "." ++ g2 ++ js "." ++ g3)
      with (join (js ".") [g0; g1; g2; g3]).
    replace (split "."%char (join (js ".") [g0; g1; g2; g3])) with [g0; g1; g2; g3].
    + cbn [map join]. now rewrite !canonical_octet.
    + symmetry. apply (split_join "."%char [g0; g1; g2; g3]); [discriminate|].
      repeat constructor; now apply octet_no_dot.
  - intros Hn. unfold isValid. rewrite Hval, Herr.
    destruct (RE_ADDRESS_match s) eqn:E; [|split; reflexivity].
    exfalso. apply Hn. now apply RE_ADDRESS_match_iff.
Qed.

Lemma dotted_decimal_validation_witness :
  (isValid (new_Address4 (js "010.1.000.255/8")) = true /\
   correctForm (new_Address4 (js "010.1.000.255/8")) = js "10.1.0.255") /\
  (isValid (new_Address4 (js "1.2.3.256")) = false /\
   error (new_Address4 (js "1.2.3.256")) = Some (js "Invalid IPv4 address.")).
Proof.
  split.
  - apply (proj1 (dotted_decimal_validation (js "010.1.000.255/8") (js "010.1.000.255")
                    eq_refl) (js "010") (js "1") (js "000") (js "255"));
      reflexivity.
  - apply (proj2 (dotted_decimal_validation (js "1.2.3.256") (js "1.2.3.256") eq_refl)).
    intros H. apply RE_ADDRESS_match_iff in H. vm_compute in H. discriminate H.
Defined.

(** C6.  An input ending with a subnet suffix ["/"] and digits whose value
    is outside [0,32] gives an invalid object with the error "Invalid subnet
    mask."; the subnet label is ["/"] followed by the parsed number, and
    construction returns before the groups are parsed: [addressMinusSuffix]
    stays unset and [parsedAddress] stays empty. *)
Theorem invalid_subnet_mask (p ds : str) (n : Z) :
  ds <> [] -> forallb (is_digit 10) ds = true ->
  parseInt ds 10 = Num n -> n < 0 \/ 32 < n ->
  isValid (new_Address4 (p ++ "/"%char :: ds)) = false /\
  error (new_Address4 (p ++ "/"%char :: ds)) = Some (js "Invalid subnet mask.") /\
  subnetMask (new_Address4 (p ++ "/"%char :: ds)) = Num n /\
  subnet (new_Address4 (p ++ "/"%char :: ds)) = "/"%char :: String_of_number (Num n) /\
  addressMinusSuffix (new_Address4 (p ++ "/"%char :: ds)) = None /\
  parsedAddress (new_Address4 (p ++ "/"%char :: ds)) = [].
Proof.
  intros Hne Hd Hp Hn.
  rewrite (parseInt_digits 10 ds Hne Hd) in Hp. injection Hp as Hp.
  pose proof (of_digits_bound 10 ltac:(lia) ds Hd) as [Hv _].
  rewrite (new_Address4_suffix p ds Hne Hd). cbv zeta.
  destruct (Z.ltb_spec 32 (of_digits 10 ds)); [|lia].
  unfold isValid. cbn. rewrite Hp. repeat split; reflexivity.
Qed.

Lemma invalid_subnet_mask_witness :
  isValid (new_Address4 (js "1.2.3.4/33")) = false /\
  error (new_Address4 (js "1.2.3.4/33")) = Some (js "Invalid subnet mask.") /\
  subnetMask (new_Address4 (js "1.2.3.4/33")) = Num 33 /\
  subnet (new_Address4 (js "1.2.3.4/33")) = js "/33" /\
  addressMinusSuffix (new_Address4 (js "1.2.3.4/33")) = None /\
  parsedAddress (new_Address4 (js "1.2.3.4/33")) = [].
Proof.
  apply (invalid_subnet_mask (js "1.2.3.4") (js "33") 33).
  - discriminate.
  - reflexivity.
  - reflexivity.
  - right. lia.
Defined.

(** * The number of parsed groups *)

(** C8, as stated, fails: on ["1.2.3"] group parsing runs to completion and
    [parsedAddress] has three entries. *)
Lemma parsedAddress_not_four :
  addressMinusSuffix (new_Address4 (js "1.2.3")) = Some (js "1.2.3") /\
  parsedAddress (new_Address4 (js "1.2.3")) = [js "1"; js "2"; js "3"] /\
  List.length (parsedAddress (new_Address4 (js "1.2.3"))) <> 4%nat.
Proof.
  repeat split. vm_compute. discriminate.
Qed.

(** C8, amended.  When group parsing runs to completion, [parsedAddress] has
    one entry more than the suffix-free address has periods; it has exactly
    four entries when the object is valid. *)
Theorem parsedAddress_length (input s : str) :
  addressMinusSuffix (new_Address4 input) = Some s ->
  List.length (parsedAddress (new_Address4 input))
    = S (count_occ ascii_dec s "."%char) /\
  (isValid (new_Address4 input) = true ->
   List.length (parsedAddress (new_Address4 input)) = 4%nat).
Proof.
  intros Hs. destruct (new_Address4_parsed input s Hs) as (Hpa & _).
  split.
  - rewrite Hpa. apply split_length.
  - intros Hv. destruct (valid_groups input Hv) as (g0 & g1 & g2 & g3 & _ & _ & _ & _ & E & _).
    now rewrite E.
Qed.

Lemma parsedAddress_length_witness :
  List.length (parsedAddress (new_Address4 (js "1.2.3.4/24"))) = 4%nat /\
  List.length (parsedAddress (new_Address4 (js "1.2.3"))) = 3%nat.
Proof.
  split.
  - apply (proj2 (parsedAddress_length (js "1.2.3.4/24") (js "1.2.3.4") eq_refl)).
    reflexivity.
  - apply (proj1 (parsedAddress_length (js "1.2.3") (js "1.2.3") eq_refl)).
Defined.

(** * Bytes *)

Lemma bytes_of_range (v : Z) :
  0 <= v < 2 ^ 32 ->
  0 <= v / 2 ^ 24 <= 255 /\ 0 <= (v / 2 ^ 16) mod 256 <= 255 /\
  0 <= (v / 2 ^ 8) mod 256 <= 255 /\ 0 <= v mod 256 <= 255.
Proof.
  intros H.
  change (2 ^ 32) with 4294967296 in H. change (2 ^ 24) with 16777216.
  change (2 ^ 16) with 65536. change (2 ^ 8) with 256.
  repeat split; Z.div_mod_to_equations; lia.
Qed.

Lemma of_bytes_bytes_of (v : Z) : 0 <= v < 2 ^ 32 -> of_bytes (bytes_of v) = v.
Proof.
  intros H. unfold bytes_of, of_bytes. cbn [fold_left].
  change (2 ^ 32) with 4294967296 in H. change (2 ^ 24) with 16777216.
  change (2 ^ 16) with 65536. change (2 ^ 8) with 256.
  Z.div_mod_to_equations. lia.
Qed.

Lemma bytes_of_of_bytes (b0 b1 b2 b3 : Z) :
  0 <= b0 <= 255 -> 0 <= b1 <= 255 -> 0 <= b2 <= 255 -> 0 <= b3 <= 255 ->
  bytes_of (of_bytes [b0; b1; b2; b3]) = [b0; b1; b2; b3] /\
  0 <= of_bytes [b0; b1; b2; b3] < 2 ^ 32.
Proof.
  intros H0 H1 H2 H3. unfold bytes_of, of_bytes. cbn [fold_left].
  change (2 ^ 32) with 4294967296. change (2 ^ 24) with 16777216.
  change (2 ^ 16) with 65536. change (2 ^ 8) with 256.
  split; [|lia].
  repeat f_equal; Z.div_mod_to_equations; lia.
Qed.

(** [sprintf('%02x', b)] of a byte is two hexadecimal digits of value [b]. *)
Lemma sprintf_02x_byte (b : Z) :
  0 <= b <= 255 ->
  len (sprintf_02x (Num b)) = 2 /\
  forallb (is_digit 16) (sprintf_02x (Num b)) = true /\
  of_digits 16 (sprintf_02x (Num b)) = b.
Proof.
  intros H. unfold sprintf_02x, toInteger.
  rewrite Z.mod_small by (change (2 ^ 32) with 4294967296; lia).
  apply (padStart_digits 16); [lia|lia|]. change (16 ^ 2) with 256. lia.
Qed.

Lemma digits_octet (b : Z) : 0 <= b <= 255 -> octet (digits 10 b) = true.
Proof.
  intros H. apply octet_spec. repeat split.
  - apply (digits_nonempty 10); lia.
  - apply (digits_len_le 10); [lia|lia|]. change (10 ^ 3) with 1000. lia.
  - apply (digits_all 10); lia.
  - rewrite (digits_value 10) by lia. lia.
Qed.

(** * Objects with four well-formed groups *)

Lemma groups_toArray (a : Address4) (g0 g1 g2 g3 : str) :
  groups_of a g0 g1 g2 g3 ->
  toArray a = map Num (map (of_digits 10) [g0; g1; g2; g3]).
Proof.
  intros (_ & Hpa & H0 & H1 & H2 & H3). unfold toArray. rewrite Hpa. cbn [map].
  apply parseInt_octet in H0 as [-> _]. apply parseInt_octet in H1 as [-> _].
  apply parseInt_octet in H2 as [-> _]. apply parseInt_octet in H3 as [-> _].
  reflexivity.
Qed.

Lemma groups_correctForm (a : Address4) (g0 g1 g2 g3 : str) :
  groups_of a g0 g1 g2 g3 ->
  correctForm a = join (js ".") (map canonical [g0; g1; g2; g3]).
Proof.
  intros (_ & Hpa & H0 & H1 & H2 & H3). unfold correctForm. rewrite Hpa. cbn [map].
  now rewrite !canonical_octet.
Qed.

Lemma groups_toHex (a : Address4) (g0 g1 g2 g3 : str) :
  groups_of a g0 g1 g2 g3 ->
  toHex a = join (js ":") (map (fun g => sprintf_02x (Num (of_digits 10 g))) [g0; g1; g2; g3]).
Proof.
  intros (_ & Hpa & H0 & H1 & H2 & H3). unfold toHex. rewrite Hpa. cbn [map].
  apply parseInt_octet in H0 as [-> _]. apply parseInt_octet in H1 as [-> _].
  apply parseInt_octet in H2 as [-> _]. apply parseInt_octet in H3 as [-> _].
  reflexivity.
Qed.

(** The concatenated two-digit renderings, and their value. *)
Lemma hex_concat (b0 b1 b2 b3 : Z) :
  0 <= b0 <= 255 -> 0 <= b1 <= 255 -> 0 <= b2 <= 255 -> 0 <= b3 <= 255 ->
  let h := sprintf_02x (Num b0) ++ sprintf_02x (Num b1)
           ++ sprintf_02x (Num b2) ++ sprintf_02x (Num b3) in
  len h = 8 /\ forallb (is_digit 16) h = true /\
  of_digits 16 h = of_bytes [b0; b1; b2; b3].
Proof.
  intros H0 H1 H2 H3.
  destruct (sprintf_02x_byte b0 H0) as (L0 & D0 & V0).
  destruct (sprintf_02x_byte b1 H1) as (L1 & D1 & V1).
  destruct (sprintf_02x_byte b2 H2) as (L2 & D2 & V2).
  destruct (sprintf_02x_byte b3 H3) as (L3 & D3 & V3).
  cbv zeta. repeat split.
  - rewrite !len_app. lia.
  - now rewrite !forallb_app, D0, D1, D2, D3.
  - rewrite !(of_digits_app 16) by lia. rewrite !len_app, L1, L2, L3, V0, V1, V2, V3.
    unfold of_bytes. cbn [fold_left]. change (16 ^ 2) with 256.
    change (16 ^ (2 + 2)) with 65536. change (16 ^ (2 + (2 + 2))) with 16777216.
    lia.
Qed.

Lemma groups_bigInteger (a : Address4) (g0 g1 g2 g3 : str) :
  groups_of a g0 g1 g2 g3 ->
  bigInteger a = Some (of_bytes (map (of_digits 10) [g0; g1; g2; g3])) /\
  0 <= of_bytes (map (of_digits 10) [g0; g1; g2; g3]) < 2 ^ 32.
Proof.
  intros (Hv & Hpa & H0 & H1 & H2 & H3). unfold bigInteger. rewrite Hv, Hpa.
  cbn [negb map join].
  apply parseInt_octet in H0 as [-> B0]. apply parseInt_octet in H1 as [-> B1].
  apply parseInt_octet in H2 as [-> B2]. apply parseInt_octet in H3 as [-> B3].
  destruct (hex_concat _ _ _ _ B0 B1 B2 B3) as (_ & Hd & Hval).
  cbn [app]. rewrite new_BigInteger_digits by exact Hd.
  split; [now rewrite Hval|].
  now apply bytes_of_of_bytes.
Qed.

Lemma valid_groups_of (input : str) :
  valid (new_Address4 input) = true ->
  exists g0 g1 g2 g3, groups_of (new_Address4 input) g0 g1 g2 g3.
Proof.
  intros Hv. destruct (valid_groups input Hv)
    as (g0 & g1 & g2 & g3 & H0 & H1 & H2 & H3 & Hpa & _).
  exists g0, g1, g2, g3. repeat split; assumption.
Qed.

Lemma in_join (x : ascii) (sep : str) (gs : list str) :
  In x (join sep gs) -> In x sep \/ exists g, In g gs /\ In x g.
Proof.
  induction gs as [|g gs IH]; [intros []|].
  destruct gs as [|g' t].
  - simpl. intros H. right. exists g. split; [now left|assumption].
  - rewrite join_cons2. intros H. apply in_app_or in H as [H|H].
    + right. exists g. split; [now left|assumption].
    + apply in_app_or in H as [H|H]; [now left|].
      destruct (IH H) as [H'|(g'' & Hin & Hx)]; [now left|].
      right. exists g''. split; [now right|assumption].
Qed.

(** Constructing from four bytes written in decimal. *)
Lemma new_Address4_bytes (b0 b1 b2 b3 : Z) :
  0 <= b0 <= 255 -> 0 <= b1 <= 255 -> 0 <= b2 <= 255 -> 0 <= b3 <= 255 ->
  let a := new_Address4
             (join (js ".") (map String_of_number [Num b0; Num b1; Num b2; Num b3])) in
  groups_of a (digits 10 b0) (digits 10 b1) (digits 10 b2) (digits 10 b3) /\
  subnetMask a = Num 32.
Proof.
  intros H0 H1 H2 H3. cbn [map].
  rewrite !String_of_number_nonneg by lia.
  pose proof (digits_octet b0 H0) as O0. pose proof (digits_octet b1 H1) as O1.
  pose proof (digits_octet b2 H2) as O2. pose proof (digits_octet b3 H3) as O3.
  set (gs := [digits 10 b0; digits 10 b1; digits 10 b2; digits 10 b3]).
  assert (Hall : Forall (fun g => octet g = true) gs) by (repeat constructor; assumption).
  assert (Hn : RE_SUBNET_STRING_exec (join (js ".") gs) = None).
  { apply RE_SUBNET_STRING_exec_no_slash. intros Hin.
    apply in_join in Hin as [Hin|(g & Hg & Hin)].
    - destruct Hin as [Hin|[]]. discriminate Hin.
    - rewrite Forall_forall in Hall. specialize (Hall g Hg).
      revert Hin. apply (digits_no_char 10); [now apply octet_digits|reflexivity]. }
  cbv zeta. rewrite (new_Address4_no_suffix _ Hn).
  pose proof (Address4_parse_groups_spec (Address4_fields (join (js ".") gs))
                (join (js ".") gs)) as (_ & _ & Hpa & _ & _ & Hm & Hv & _).
  cbv zeta in *.
  assert (Hmatch : RE_ADDRESS_match (join (js ".") gs) = true).
  { apply (RE_ADDRESS_groups_complete gs); [discriminate|assumption]. }
  rewrite Hmatch in Hv. split; [|exact Hm].
  repeat split; try assumption.
  rewrite Hpa. apply (split_join "."%char gs); [discriminate|].
  rewrite Forall_forall in *. intros g Hg. apply octet_no_dot. now apply Hall.
Qed.

(** * [fromHex] and [fromInteger] *)

Lemma remove_char_absent (x : ascii) (s : str) : ~ In x s -> remove_char x s = s.
Proof.
  intros H. unfold remove_char. apply forallb_filter_id.
  apply forallb_forall. intros c Hc.
  destruct (Ascii.eqb_spec c x) as [->|]; [contradiction|reflexivity].
Qed.

Lemma remove_char_not_in (x : ascii) (s : str) : ~ In x (remove_char x s).
Proof.
  unfold remove_char. intros H. apply filter_In in H as [_ H].
  now rewrite Ascii.eqb_refl in H.
Qed.

Lemma In_firstn {A : Type} (x : A) (k : nat) (l : list A) :
  In x (firstn k l) -> In x l.
Proof.
  intros H. rewrite <- (firstn_skipn k l). apply in_or_app. now left.
Qed.

Lemma fromHex_unfold (h : str) :
  fromHex h =
  new_Address4
    (join (js ".")
       (map String_of_number (hex_groups (padStart (remove_char ":"%char h) 8 "0"%char)))).
Proof. reflexivity. Qed.

Lemma len_firstn (k : nat) (s : str) :
  Z.of_nat k <= len s -> len (firstn k s) = Z.of_nat k.
Proof.
  unfold len. intros H. rewrite length_firstn. lia.
Qed.

Lemma firstn_skipn_firstn {A : Type} (k i n : nat) (l : list A) :
  (i + k <= n)%nat -> firstn k (skipn i (firstn n l)) = firstn k (skipn i l).
Proof.
  intros H. rewrite skipn_firstn_comm, firstn_firstn.
  now rewrite Nat.min_l by lia.
Qed.

(** The loop of [fromHex] only looks at the first eight characters. *)
Lemma hex_groups_firstn (p : str) :
  8 <= len p -> hex_groups (firstn 8 p) = hex_groups p.
Proof.
  intros H. unfold hex_groups. cbn [map].
  assert (L : len (firstn 8 p) = 8) by (apply (len_firstn 8); exact H).
  rewrite !slice_firstn_skipn by lia.
  change (Z.to_nat (0 + 2 - 0)) with 2%nat. change (Z.to_nat (2 + 2 - 2)) with 2%nat.
  change (Z.to_nat (4 + 2 - 4)) with 2%nat. change (Z.to_nat (6 + 2 - 6)) with 2%nat.
  change (Z.to_nat 0) with 0%nat. change (Z.to_nat 2) with 2%nat.
  change (Z.to_nat 4) with 4%nat. change (Z.to_nat 6) with 6%nat.
  now rewrite !firstn_skipn_firstn by lia.
Qed.

Lemma Num4_eq (a b c d a' b' c' d' : Z) :
  a = a' -> b = b' -> c = c' -> d = d' ->
  [Num a; Num b; Num c; Num d] = [Num a'; Num b'; Num c'; Num d'].
Proof. intros -> -> -> ->. reflexivity. Qed.

(** On eight hexadecimal digits the loop reads the four bytes of their
    value. *)
Lemma hex_groups_digits (p : str) :
  len p = 8 -> forallb (is_digit 16) p = true ->
  hex_groups p = map Num (bytes_of (of_digits 16 p)).
Proof.
  intros L D. unfold len in L.
  destruct p as [|c0 [|c1 [|c2 [|c3 [|c4 [|c5 [|c6 [|c7 [|c8 t]]]]]]]]];
    simpl List.length in L; try lia.
  change (hex_groups [c0; c1; c2; c3; c4; c5; c6; c7])
    with [parseInt [c0; c1] 16; parseInt [c2; c3] 16;
          parseInt [c4; c5] 16; parseInt [c6; c7] 16].
  cbn [forallb] in D. rewrite !andb_true_iff in D.
  destruct D as (D0 & D1 & D2 & D3 & D4 & D5 & D6 & D7 & _).
  rewrite !parseInt_digits by (try discriminate; cbn [forallb]; now rewrite ?D0, ?D1, ?D2, ?D3, ?D4, ?D5, ?D6, ?D7).
  apply is_digit_dval in D0 as [_ D0]. apply is_digit_dval in D1 as [_ D1].
  apply is_digit_dval in D2 as [_ D2]. apply is_digit_dval in D3 as [_ D3].
  apply is_digit_dval in D4 as [_ D4]. apply is_digit_dval in D5 as [_ D5].
  apply is_digit_dval in D6 as [_ D6]. apply is_digit_dval in D7 as [_ D7].
  unfold bytes_of, of_digits. cbn [fold_left map].
  change (2 ^ 24) with 16777216. change (2 ^ 16) with 65536. change (2 ^ 8) with 256.
  apply Num4_eq; Z.div_mod_to_equations; lia.
Qed.

(** The object built from the decimal bytes of a 32-bit value. *)
Lemma address_of_value (v : Z) :
  0 <= v < 2 ^ 32 ->
  let a := new_Address4
             (join (js ".") (map String_of_number (map Num (bytes_of v)))) in
  valid a = true /\ subnetMask a = Num 32 /\
  toArray a = map Num (bytes_of v) /\
  correctForm a = join (js ".") (map (digits 10) (bytes_of v)) /\
  bigInteger a = Some v.
Proof.
  intros Hv. pose proof (bytes_of_range v Hv) as (R0 & R1 & R2 & R3).
  pose proof (of_bytes_bytes_of v Hv) as Hob.
  unfold bytes_of in *.
  set (b0 := v / 2 ^ 24) in *. set (b1 := (v / 2 ^ 16) mod 256) in *.
  set (b2 := (v / 2 ^ 8) mod 256) in *. set (b3 := v mod 256) in *.
  destruct (new_Address4_bytes b0 b1 b2 b3 R0 R1 R2 R3) as [Hg Hm].
  cbv zeta in *. cbn [map] in *.
  assert (E : map (of_digits 10) [digits 10 b0; digits 10 b1; digits 10 b2; digits 10 b3]
              = [b0; b1; b2; b3]).
  { cbn [map]. now rewrite !(digits_value 10) by lia. }
  repeat split.
  - apply Hg.
  - exact Hm.
  - rewrite (groups_toArray _ _ _ _ _ Hg), E. reflexivity.
  - rewrite (groups_correctForm _ _ _ _ _ Hg). cbn [map]. unfold canonical.
    now rewrite !(digits_value 10) by lia.
  - destruct (groups_bigInteger _ _ _ _ _ Hg) as [Hb _].
    rewrite Hb, E. now rewrite Hob.
Qed.

Lemma Number_toString_nonneg (r v : Z) :
  0 <= v -> Number_toString r (Num v) = digits r v.
Proof.
  intros H. unfold Number_toString. destruct (Z.ltb_spec v 0); [lia|reflexivity].
Qed.

Lemma fromHex_digits (h : str) :
  len h <= 8 -> h <> [] -> forallb (is_digit 16) h = true ->
  fromHex h =
  new_Address4 (join (js ".") (map String_of_number (map Num (bytes_of (of_digits 16 h))))).
Proof.
  intros L Hne D. rewrite fromHex_unfold.
  rewrite remove_char_absent by (apply (digits_no_char 16); [exact D|reflexivity]).
  assert (P : len (padStart h 8 "0"%char) = 8 /\
              forallb (is_digit 16) (padStart h 8 "0"%char) = true /\
              of_digits 16 (padStart h 8 "0"%char) = of_digits 16 h).
  { unfold padStart. destruct (Z.leb_spec 8 (len h)).
    - repeat split; [lia|assumption].
    - repeat split.
      + rewrite len_app, len_repeat. lia.
      + rewrite forallb_app, D, forallb_repeat; reflexivity.
      + rewrite (of_digits_app 16), (of_digits_zeros 16) by lia. lia. }
  destruct P as (PL & PD & PV).
  now rewrite (hex_groups_digits _ PL PD), PV.
Qed.

Lemma fromInteger_small (n : Z) :
  0 <= n < 2 ^ 32 ->
  fromInteger (Num n) =
  new_Address4 (join (js ".") (map String_of_number (map Num (bytes_of n)))).
Proof.
  intros H. unfold fromInteger. rewrite Number_toString_nonneg by lia.
  rewrite fromHex_digits.
  - now rewrite (digits_value 16) by lia.
  - apply (digits_len_le 16); [lia|lia|]. change (16 ^ 8) with (2 ^ 32). lia.
  - apply (digits_nonempty 16); lia.
  - apply (digits_all 16); lia.
Qed.

(** C4.  For every integer [n] in [0, 2^32-1], [fromInteger(n).toArray()] is
    the four big-endian bytes of [n]: each is in [0,255] and
    [n = b0*2^24 + b1*2^16 + b2*2^8 + b3]. *)
Theorem fromInteger_toArray (n : Z) :
  0 <= n <= 2 ^ 32 - 1 ->
  exists b0 b1 b2 b3,
    toArray (fromInteger (Num n)) = [Num b0; Num b1; Num b2; Num b3] /\
    0 <= b0 <= 255 /\ 0 <= b1 <= 255 /\ 0 <= b2 <= 255 /\ 0 <= b3 <= 255 /\
    n = b0 * 2 ^ 24 + b1 * 2 ^ 16 + b2 * 2 ^ 8 + b3.
Proof.
  intros H. assert (Hn : 0 <= n < 2 ^ 32) by lia.
  rewrite (fromInteger_small n Hn).
  destruct (address_of_value n Hn) as (_ & _ & Hta & _).
  cbv zeta in Hta. rewrite Hta.
  pose proof (bytes_of_range n Hn) as (R0 & R1 & R2 & R3).
  pose proof (of_bytes_bytes_of n Hn) as Hob.
  unfold bytes_of in *.
  exists (n / 2 ^ 24), ((n / 2 ^ 16) mod 256), ((n / 2 ^ 8) mod 256), (n mod 256).
  repeat split; try lia.
  unfold of_bytes in Hob. cbn [fold_left] in Hob.
  change (2 ^ 24) with 16777216 in *. change (2 ^ 16) with 65536 in *.
  change (2 ^ 8) with 256 in *. lia.
Qed.

Lemma fromInteger_toArray_witness :
  (exists b0 b1 b2 b3,
      toArray (fromInteger (Num 0)) = [Num b0; Num b1; Num b2; Num b3] /\
      0 <= b0 <= 255 /\ 0 <= b1 <= 255 /\ 0 <= b2 <= 255 /\ 0 <= b3 <= 255 /\
      0 = b0 * 2 ^ 24 + b1 * 2 ^ 16 + b2 * 2 ^ 8 + b3) /\
  (exists b0 b1 b2 b3,
      toArray (fromInteger (Num 4294967295)) = [Num b0; Num b1; Num b2; Num b3] /\
      0 <= b0 <= 255 /\ 0 <= b1 <= 255 /\ 0 <= b2 <= 255 /\ 0 <= b3 <= 255 /\
      4294967295 = b0 * 2 ^ 24 + b1 * 2 ^ 16 + b2 * 2 ^ 8 + b3).
Proof.
  split.
  - apply (fromInteger_toArray 0). vm_compute. split; discriminate.
  - apply (fromInteger_toArray 4294967295). vm_compute. split; discriminate.
Defined.

(** * Hexadecimal strings of more than eight characters *)

Lemma fromHex_long (h : str) :
  8 < len (remove_char ":"%char h) ->
  fromHex h = fromHex (firstn 8 (remove_char ":"%char h)).
Proof.
  intros H. rewrite !fromHex_unfold.
  set (s := remove_char ":"%char h) in *.
  assert (E : remove_char ":"%char (firstn 8 s) = firstn 8 s).
  { apply remove_char_absent. intros Hin. apply In_firstn in Hin.
    revert Hin. apply remove_char_not_in. }
  assert (L : len (firstn 8 s) = 8) by (apply (len_firstn 8); lia).
  rewrite E. unfold padStart.
  destruct (Z.leb_spec 8 (len s)); [|lia].
  destruct (Z.leb_spec 8 (len (firstn 8 s))); [|lia].
  now rewrite hex_groups_firstn by lia.
Qed.

Lemma fromInteger_large (n : Z) :
  2 ^ 32 <= n ->
  8 < len (digits 16 n) /\
  0 <= n / 16 ^ (len (digits 16 n) - 8) < 2 ^ 32 /\
  fromInteger (Num n) = fromInteger (Num (n / 16 ^ (len (digits 16 n) - 8))).
Proof.
  intros H. assert (Hn : 0 <= n) by (change (2 ^ 32) with 4294967296 in H; lia).
  pose proof (digits_len_gt 16 ltac:(lia) n 8 ltac:(lia) H) as Hk.
  pose proof (digits_all 16 ltac:(lia) n Hn) as Hd.
  pose proof (digits_value 16 ltac:(lia) n Hn) as Hv.
  pose proof (of_digits_bound 16 ltac:(lia) _ Hd) as Hb. rewrite Hv in Hb.
  set (k := len (digits 16 n)) in *.
  assert (Hp : 0 < 16 ^ (k - 8)) by (apply Z.pow_pos_nonneg; lia).
  assert (Ht : 0 <= n / 16 ^ (k - 8) < 2 ^ 32).
  { split; [apply Z.div_pos; lia|].
    apply Z.div_lt_upper_bound; [lia|].
    change (2 ^ 32) with (16 ^ 8). rewrite <- Z.pow_add_r by lia.
    replace (k - 8 + 8) with k by lia. lia. }
  repeat split; try lia.
  rewrite (fromInteger_small _ Ht).
  unfold fromInteger. rewrite Number_toString_nonneg by lia.
  assert (Hr : remove_char ":"%char (digits 16 n) = digits 16 n).
  { apply remove_char_absent. apply (digits_no_char 16); [exact Hd|reflexivity]. }
  rewrite fromHex_long by (rewrite Hr; exact Hk).
  rewrite Hr.
  assert (L : len (firstn 8 (digits 16 n)) = 8) by (apply (len_firstn 8); fold k; lia).
  assert (D : forallb (is_digit 16) (firstn 8 (digits 16 n)) = true).
  { apply forallb_forall. intros c Hc. apply In_firstn in Hc.
    rewrite forallb_forall in Hd. now apply Hd. }
  rewrite fromHex_digits; [|lia| |exact D].
  - rewrite (of_digits_firstn 16) by (try exact Hd; unfold k, len in Hk; lia).
    rewrite Hv. reflexivity.
  - intros E. rewrite E in L. discriminate L.
Qed.

(** C10.  A hexadecimal string that is longer than eight characters once
    its colons are removed is read by [fromHex] as its first eight
    characters, the rest being ignored.  So for every integer [n >= 2^32],
    whose hexadecimal form has [k > 8] digits, [fromInteger(n)] is the
    address of the top eight hexadecimal digits of [n], that is of
    [n / 16^(k-8)], not of [n mod 2^32]: [fromInteger(2^32)] is "16.0.0.0",
    while [2^32 mod 2^32 = 0] gives "0.0.0.0". *)
Theorem fromHex_reads_first_eight :
  (forall h, 8 < len (remove_char ":"%char h) ->
             fromHex h = fromHex (firstn 8 (remove_char ":"%char h))) /\
  (forall h rest, len (remove_char ":"%char h) = 8 ->
                  fromHex (h ++ rest) = fromHex h) /\
  (forall n, 2 ^ 32 <= n ->
             8 < len (digits 16 n) /\
             fromInteger (Num n)
               = fromInteger (Num (n / 16 ^ (len (digits 16 n) - 8))) /\
             toArray (fromInteger (Num n))
               = map Num (bytes_of (n / 16 ^ (len (digits 16 n) - 8)))) /\
  correctForm (fromInteger (Num (2 ^ 32))) = js "16.0.0.0" /\
  correctForm (fromInteger (Num (2 ^ 32 mod 2 ^ 32))) = js "0.0.0.0".
Proof.
  split; [exact fromHex_long|]. split; [|split; [|split; reflexivity]].
  - intros h rest L.
    assert (E : remove_char ":"%char (h ++ rest)
                = remove_char ":"%char h ++ remove_char ":"%char rest).
    { unfold remove_char. apply filter_app. }
    assert (F : firstn 8 (remove_char ":"%char (h ++ rest)) = remove_char ":"%char h).
    { rewrite E. unfold len in L.
      rewrite firstn_app. replace (8 - List.length (remove_char ":"%char h))%nat with 0%nat by lia.
      rewrite firstn_O, app_nil_r. apply firstn_all2. lia. }
    destruct (Z.eq_dec (len (remove_char ":"%char rest)) 0) as [Hz|Hz].
    + rewrite !fromHex_unfold, E.
      unfold len in Hz. destruct (remove_char ":"%char rest); [|simpl in Hz; lia].
      now rewrite app_nil_r.
    + rewrite fromHex_long.
      * rewrite F. rewrite !fromHex_unfold.
        rewrite (remove_char_absent ":"%char (remove_char ":"%char h)); [reflexivity|].
        apply remove_char_not_in.
      * rewrite E, len_app. pose proof (len_nonneg (remove_char ":"%char rest)). lia.
  - intros n H. destruct (fromInteger_large n H) as (Hk & Ht & E).
    repeat split; [exact Hk|exact E|].
    rewrite E, (fromInteger_small _ Ht).
    apply (address_of_value _ Ht).
Qed.

Lemma fromHex_reads_first_eight_witness :
  fromHex (js "c0a80186ffff") = fromHex (js "c0a80186") /\
  toArray (fromInteger (Num 4294967296)) = [Num 16; Num 0; Num 0; Num 0].
Proof.
  split.
  - apply (proj1 fromHex_reads_first_eight (js "c0a80186ffff")). reflexivity.
  - apply (proj2 (proj2 (proj1 (proj2 (proj2 fromHex_reads_first_eight))
                           4294967296 ltac:(vm_compute; discriminate)))).
Defined.

(** * The hexadecimal round trip *)

Lemma remove_char_app (x : ascii) (a b : str) :
  remove_char x (a ++ b) = remove_char x a ++ remove_char x b.
Proof. unfold remove_char. apply filter_app. Qed.

Lemma remove_char_head (x : ascii) (s : str) :
  remove_char x (x :: s) = remove_char x s.
Proof. unfold remove_char. simpl. now rewrite Ascii.eqb_refl. Qed.

Lemma fromHex_remove_colons (h : str) :
  fromHex h = fromHex (remove_char ":"%char h).
Proof.
  rewrite !fromHex_unfold.
  rewrite (remove_char_absent ":"%char (remove_char ":"%char h)); [reflexivity|].
  apply remove_char_not_in.
Qed.

Lemma fromHex_toHex_groups (a : Address4) (g0 g1 g2 g3 : str) :
  groups_of a g0 g1 g2 g3 ->
  fromHex (toHex a) =
  new_Address4
    (join (js ".")
       (map String_of_number (map Num (map (of_digits 10) [g0; g1; g2; g3])))).
Proof.
  intros Hg. rewrite (groups_toHex a g0 g1 g2 g3 Hg).
  destruct Hg as (_ & _ & H0 & H1 & H2 & H3).
  apply parseInt_octet in H0 as [_ B0]. apply parseInt_octet in H1 as [_ B1].
  apply parseInt_octet in H2 as [_ B2]. apply parseInt_octet in H3 as [_ B3].
  destruct (hex_concat _ _ _ _ B0 B1 B2 B3) as (L & D & V). cbv zeta in *.
  destruct (sprintf_02x_byte _ B0) as (_ & D0 & _).
  destruct (sprintf_02x_byte _ B1) as (_ & D1 & _).
  destruct (sprintf_02x_byte _ B2) as (_ & D2 & _).
  destruct (sprintf_02x_byte _ B3) as (_ & D3 & _).
  rewrite fromHex_remove_colons. cbn [map join].
  change (js ":") with [":"%char]. cbn [app].
  rewrite !remove_char_app, !remove_char_head, !remove_char_app, !remove_char_head,
    !remove_char_app, !remove_char_head.
  rewrite !remove_char_absent
    by (apply (digits_no_char 16); [assumption|reflexivity]).
  rewrite fromHex_digits.
  - rewrite V. cbn [map].
    now destruct (bytes_of_of_bytes _ _ _ _ B0 B1 B2 B3) as [-> _].
  - lia.
  - intros E. rewrite E in L. discriminate L.
  - exact D.
Qed.

(** C5.  For every valid address, converting to hexadecimal and back gives
    an address with the same canonical form. *)
Theorem fromHex_toHex_correctForm (input : str) :
  isValid (new_Address4 input) = true ->
  correctForm (fromHex (toHex (new_Address4 input)))
  = correctForm (new_Address4 input).
Proof.
  intros Hv. destruct (valid_groups_of input Hv) as (g0 & g1 & g2 & g3 & Hg).
  rewrite (fromHex_toHex_groups _ _ _ _ _ Hg), (groups_correctForm _ _ _ _ _ Hg).
  pose proof Hg as (_ & _ & H0 & H1 & H2 & H3).
  apply parseInt_octet in H0 as [_ B0]. apply parseInt_octet in H1 as [_ B1].
  apply parseInt_octet in H2 as [_ B2]. apply parseInt_octet in H3 as [_ B3].
  destruct (new_Address4_bytes _ _ _ _ B0 B1 B2 B3) as [Hg' _]. cbv zeta in Hg'.
  cbn [map] in *. rewrite (groups_correctForm _ _ _ _ _ Hg'). cbn [map].
  unfold canonical. now rewrite !(digits_value 10) by lia.
Qed.

Lemma fromHex_toHex_correctForm_witness :
  correctForm (fromHex (toHex (new_Address4 (js "192.168.001.134/26"))))
  = correctForm (new_Address4 (js "192.168.001.134/26")).
Proof.
  apply (fromHex_toHex_correctForm (js "192.168.001.134/26")). reflexivity.
Defined.

(** * [bigInteger] and the methods that call it *)

(** C7.  On an invalid address [bigInteger()] returns [null], and
    [binaryZeroPad()], [mask()], [getBitsBase2()] and [isMulticast()], which
    read a property of that [null], raise instead of returning.  On a valid
    address [bigInteger()] is the base-16 value of the concatenation of the
    two-digit hexadecimal renderings of its four groups. *)
Theorem bigInteger_null_or_hex_value (input : str) :
  (isValid (new_Address4 input) = false ->
     bigInteger (new_Address4 input) = None /\
     binaryZeroPad (new_Address4 input) = None /\
     (forall m, mask (new_Address4 input) m = None) /\
     (forall i j, getBitsBase2 (new_Address4 input) i j = None) /\
     isMulticast (new_Address4 input) = None) /\
  (isValid (new_Address4 input) = true ->
     exists g0 g1 g2 g3 h0 h1 h2 h3,
       parsedAddress (new_Address4 input) = [g0; g1; g2; g3] /\
       h0 = sprintf_02x (parseInt g0 10) /\ h1 = sprintf_02x (parseInt g1 10) /\
       h2 = sprintf_02x (parseInt g2 10) /\ h3 = sprintf_02x (parseInt g3 10) /\
       len h0 = 2 /\ len h1 = 2 /\ len h2 = 2 /\ len h3 = 2 /\
       forallb (is_digit 16) (h0 ++ h1 ++ h2 ++ h3) = true /\
       bigInteger (new_Address4 input) = Some (of_digits 16 (h0 ++ h1 ++ h2 ++ h3))).
Proof.
  unfold isValid. split.
  - intros Hv.
    assert (Hb : bigInteger (new_Address4 input) = None).
    { unfold bigInteger. now rewrite Hv. }
    assert (Hz : binaryZeroPad (new_Address4 input) = None).
    { unfold binaryZeroPad. now rewrite Hb. }
    assert (Hg : forall i j, getBitsBase2 (new_Address4 input) i j = None).
    { intros i j. unfold getBitsBase2. now rewrite Hz. }
    repeat split; try assumption.
    + intros m. unfold mask. apply Hg.
    + unfold isMulticast, isInSubnet, mask. now rewrite Hg.
  - intros Hv. destruct (valid_groups_of input Hv) as (g0 & g1 & g2 & g3 & Hg).
    pose proof Hg as (_ & Hpa & H0 & H1 & H2 & H3).
    exists g0, g1, g2, g3.
    exists (sprintf_02x (parseInt g0 10)), (sprintf_02x (parseInt g1 10)),
           (sprintf_02x (parseInt g2 10)), (sprintf_02x (parseInt g3 10)).
    apply parseInt_octet in H0 as [E0 B0]. apply parseInt_octet in H1 as [E1 B1].
    apply parseInt_octet in H2 as [E2 B2]. apply parseInt_octet in H3 as [E3 B3].
    destruct (hex_concat _ _ _ _ B0 B1 B2 B3) as (_ & D & _). cbv zeta in D.
    destruct (sprintf_02x_byte _ B0) as (L0 & _).
    destruct (sprintf_02x_byte _ B1) as (L1 & _).
    destruct (sprintf_02x_byte _ B2) as (L2 & _).
    destruct (sprintf_02x_byte _ B3) as (L3 & _).
    rewrite E0, E1, E2, E3.
    repeat split; try assumption.
    unfold bigInteger. rewrite Hv, Hpa. cbn [negb map join app].
    rewrite E0, E1, E2, E3.
    now rewrite new_BigInteger_digits by exact D.
Qed.

Lemma bigInteger_null_or_hex_value_witness :
  (bigInteger (new_Address4 (js "1.2.3.256")) = None /\
   binaryZeroPad (new_Address4 (js "1.2.3.256")) = None /\
   (forall m, mask (new_Address4 (js "1.2.3.256")) m = None) /\
   (forall i j, getBitsBase2 (new_Address4 (js "1.2.3.256")) i j = None) /\
   isMulticast (new_Address4 (js "1.2.3.256")) = None) /\
  bigInteger (new_Address4 (js "192.168.1.134")) = Some 3232235910.
Proof.
  split.
  - apply (proj1 (bigInteger_null_or_hex_value (js "1.2.3.256"))). reflexivity.
  - destruct (proj2 (bigInteger_null_or_hex_value (js "192.168.1.134")) eq_refl)
      as (g0 & g1 & g2 & g3 & h0 & h1 & h2 & h3 & Hpa & -> & -> & -> & -> & _ & _ & _ & _ & _ & Hb).
    injection Hpa as <- <- <- <-. exact Hb.
Defined.

(** * The binary form and the subnet bounds *)

Lemma str_eqb_eq (a b : str) : str_eqb a b = true <-> a = b.
Proof.
  revert b. induction a as [|x a IH]; intros [|y b]; simpl; split; intros H;
    try reflexivity; try discriminate.
  - apply andb_true_iff in H as [Hx Ha]. apply Ascii.eqb_eq in Hx.
    apply IH in Ha. now subst.
  - injection H as -> ->. rewrite Ascii.eqb_refl. simpl. now apply IH.
Qed.

(** The zero-padded binary form of a valid address: 32 binary digits whose
    value is the address. *)
Lemma binaryZeroPad_valid (input : str) :
  valid (new_Address4 input) = true ->
  exists v bits m,
    bigInteger (new_Address4 input) = Some v /\ 0 <= v < 2 ^ 32 /\
    binaryZeroPad (new_Address4 input) = Some bits /\
    len bits = 32 /\ forallb (is_digit 2) bits = true /\ of_digits 2 bits = v /\
    subnetMask (new_Address4 input) = Num m /\ 0 <= m <= 32.
Proof.
  intros Hv. destruct (valid_groups_of input Hv) as (g0 & g1 & g2 & g3 & Hg).
  destruct (groups_bigInteger _ _ _ _ _ Hg) as [Hb Hr].
  destruct (new_Address4_valid input Hv) as [s Hs].
  destruct (new_Address4_parsed input s Hs) as (_ & _ & _ & m & Hm & Hmr).
  set (v := of_bytes (map (of_digits 10) [g0; g1; g2; g3])) in *.
  destruct (padStart_digits 2 ltac:(lia) v 32 ltac:(lia) Hr) as (L & D & V).
  exists v, (padStart (digits 2 v) 32 "0"%char), m.
  repeat split; try assumption; try lia.
  unfold binaryZeroPad. rewrite Hb. cbn [bind].
  unfold BigInteger_toString. now rewrite Number_toString_nonneg by lia.
Qed.

Lemma mask_prefix (a : Address4) (bits : str) (m : Z) :
  binaryZeroPad a = Some bits -> 0 <= m <= len bits ->
  mask a (Some (Num m)) = Some (firstn (Z.to_nat m) bits).
Proof.
  intros Hb Hm. unfold mask, getBitsBase2. rewrite Hb. cbn [bind].
  now rewrite slice_prefix.
Qed.

Lemma mask_default (a : Address4) : mask a None = mask a (Some (subnetMask a)).
Proof. reflexivity. Qed.

(** C9.  [isMulticast()] is [isInSubnet] against [224.0.0.0/4]: on a valid
    address it returns true exactly when the first four characters of the
    32-character binary form of the address are those of [224.0.0.0], which
    are "1110" (the length 4 is the mask of the argument).  "224.0.0.1" is
    multicast and "10.0.0.1" is not. *)
Theorem isMulticast_leading_bits :
  (forall input,
      isValid (new_Address4 input) = true ->
      isMulticast (new_Address4 input)
      = isInSubnet (new_Address4 input) (new_Address4 (js "224.0.0.0/4")) /\
      exists bits bits' b,
        binaryZeroPad (new_Address4 input) = Some bits /\ len bits = 32 /\
        binaryZeroPad (new_Address4 (js "224.0.0.0/4")) = Some bits' /\
        len bits' = 32 /\ firstn 4 bits' = js "1110" /\
        isMulticast (new_Address4 input) = Some b /\
        (b = true <-> firstn 4 bits = firstn 4 bits')) /\
  isMulticast (new_Address4 (js "224.0.0.1")) = Some true /\
  isMulticast (new_Address4 (js "10.0.0.1")) = Some false.
Proof.
  split; [|split; reflexivity].
  intros input Hv. split; [reflexivity|].
  destruct (binaryZeroPad_valid input Hv) as (v & bits & m & _ & _ & Hb & L & _).
  exists bits, (js "11100000000000000000000000000000"),
         (str_eqb (firstn 4 bits) (js "1110")).
  repeat split; try assumption.
  - unfold isMulticast, isInSubnet.
    change (subnetMask (new_Address4 (js "224.0.0.0/4"))) with (Num 4).
    rewrite (mask_prefix _ bits 4 Hb) by lia. cbn [bind].
    change (mask (new_Address4 (js "224.0.0.0/4")) None) with (Some (js "1110")).
    reflexivity.
  - intros H. now apply str_eqb_eq in H.
  - intros H. apply str_eqb_eq. exact H.
Qed.

Lemma isMulticast_leading_bits_witness :
  exists bits bits' b,
    binaryZeroPad (new_Address4 (js "239.255.255.250")) = Some bits /\ len bits = 32 /\
    binaryZeroPad (new_Address4 (js "224.0.0.0/4")) = Some bits' /\
    len bits' = 32 /\ firstn 4 bits' = js "1110" /\
    isMulticast (new_Address4 (js "239.255.255.250")) = Some b /\
    (b = true <-> firstn 4 bits = firstn 4 bits').
Proof.
  apply (proj1 isMulticast_leading_bits (js "239.255.255.250")). reflexivity.
Defined.

(** C2.  For "192.168.1.134/26" the start address is "192.168.1.128" and the
    end address is "192.168.1.191". *)
Theorem start_end_example :
  option_map correctForm (startAddress (new_Address4 (js "192.168.1.134/26")))
  = Some (js "192.168.1.128") /\
  option_map correctForm (endAddress (new_Address4 (js "192.168.1.134/26")))
  = Some (js "192.168.1.191").
Proof.
  split; vm_compute; reflexivity.
Qed.

Lemma forallb_firstn {A : Type} (p : A -> bool) (k : nat) (l : list A) :
  forallb p l = true -> forallb p (firstn k l) = true.
Proof.
  intros H. rewrite <- (firstn_skipn k l), forallb_app in H.
  now apply andb_true_iff in H as [H _].
Qed.

(** The values [_startAddress()] and [_endAddress()] compute: the address
    with its host bits cleared, and with its host bits set. *)
Lemma start_end_values (input : str) :
  valid (new_Address4 input) = true ->
  exists v m,
    bigInteger (new_Address4 input) = Some v /\ 0 <= v < 2 ^ 32 /\
    subnetMask (new_Address4 input) = Num m /\ 0 <= m <= 32 /\
    _startAddress (new_Address4 input)
      = Some (v / 2 ^ (32 - m) * 2 ^ (32 - m)) /\
    _endAddress (new_Address4 input)
      = Some (v / 2 ^ (32 - m) * 2 ^ (32 - m) + (2 ^ (32 - m) - 1)).
Proof.
  intros Hv.
  destruct (binaryZeroPad_valid input Hv)
    as (v & bits & m & Hb & Hr & Hz & L & D & V & Hm & Hmr).
  exists v, m. repeat split; try assumption; try lia.
  - unfold _startAddress. rewrite mask_default, Hm.
    rewrite (mask_prefix _ bits m Hz) by lia. cbn [bind].
    unfold num_sub, BITS. change (js "0") with ["0"%char].
    rewrite repeat_str_char by lia.
    rewrite new_BigInteger_digits
      by (rewrite forallb_app, forallb_firstn, forallb_repeat; auto).
    rewrite (of_digits_app 2), (of_digits_zeros 2), len_repeat by lia.
    rewrite (of_digits_firstn 2) by (try assumption; unfold len in L; lia).
    rewrite V, L, !Z2Nat.id by lia. f_equal. lia.
  - unfold _endAddress. rewrite mask_default, Hm.
    rewrite (mask_prefix _ bits m Hz) by lia. cbn [bind].
    unfold num_sub, BITS. change (js "1") with ["1"%char].
    rewrite repeat_str_char by lia.
    rewrite new_BigInteger_digits
      by (rewrite forallb_app, forallb_firstn, forallb_repeat; auto).
    rewrite (of_digits_app 2), (of_digits_ones 2), len_repeat by lia.
    rewrite (of_digits_firstn 2) by (try assumption; unfold len in L; lia).
    rewrite V, L, !Z2Nat.id by lia. reflexivity.
Qed.

(** [fromBigInteger] is exact on the unsigned 32-bit range. *)
Lemma fromBigInteger_small (z : Z) :
  0 <= z < 2 ^ 32 ->
  valid (fromBigInteger z) = true /\ bigInteger (fromBigInteger z) = Some z.
Proof.
  intros H. unfold fromBigInteger, BigInteger_toString.
  rewrite Number_toString_nonneg by lia.
  rewrite parseInt_digits
    by (try (apply (digits_nonempty 10); lia); apply (digits_all 10); lia).
  rewrite (digits_value 10) by lia.
  rewrite (fromInteger_small z H).
  destruct (address_of_value z H) as (Hv & _ & _ & _ & Hb).
  now split.
Qed.

(** C1, as stated, fails at the two ends of the address space.  For
    "255.255.255.255/32" the start address is 4294967295 and
    [startAddressExclusive()] is "16.0.0.0", not the start address plus 1;
    for "0.0.0.0/32" the end address is 0 and [endAddressExclusive()] is the
    invalid address "0.0.0.-1". *)
Lemma exclusive_bounds_wrap :
  isValid (new_Address4 (js "255.255.255.255/32")) = true /\
  bind (startAddress (new_Address4 (js "255.255.255.255/32"))) bigInteger
    = Some 4294967295 /\
  option_map correctForm (startAddressExclusive (new_Address4 (js "255.255.255.255/32")))
    = Some (js "16.0.0.0") /\
  bind (startAddressExclusive (new_Address4 (js "255.255.255.255/32"))) bigInteger
    <> Some (4294967295 + 1) /\
  isValid (new_Address4 (js "0.0.0.0/32")) = true /\
  bind (endAddress (new_Address4 (js "0.0.0.0/32"))) bigInteger = Some 0 /\
  option_map correctForm (endAddressExclusive (new_Address4 (js "0.0.0.0/32")))
    = Some (js "0.0.0.-1") /\
  bind (endAddressExclusive (new_Address4 (js "0.0.0.0/32"))) bigInteger
    <> Some (0 - 1).
Proof.
  repeat split; try (vm_compute; reflexivity); vm_compute; discriminate.
Qed.

(** C1, amended.  For every valid address with its mask: the four boundary
    methods return an address without raising; the start and end addresses
    are valid and, as unsigned 32-bit integers, start <= address <= end;
    [startAddressExclusive()] is the start address plus 1 whenever the start
    address is below 2^32-1, and [endAddressExclusive()] is the end address
    minus 1 whenever the end address is above 0. *)
Theorem subnet_bounds (input : str) :
  isValid (new_Address4 input) = true ->
  exists v s e aS aE aSx aEx,
    bigInteger (new_Address4 input) = Some v /\
    startAddress (new_Address4 input) = Some aS /\
    endAddress (new_Address4 input) = Some aE /\
    startAddressExclusive (new_Address4 input) = Some aSx /\
    endAddressExclusive (new_Address4 input) = Some aEx /\
    bigInteger aS = Some s /\ bigInteger aE = Some e /\
    0 <= s /\ s <= v /\ v <= e /\ e <= 2 ^ 32 - 1 /\
    (s < 2 ^ 32 - 1 -> bigInteger aSx = Some (s + 1)) /\
    (0 < e -> bigInteger aEx = Some (e - 1)).
Proof.
  unfold isValid. intros Hv.
  destruct (start_end_values input Hv) as (v & m & Hb & Hr & Hm & Hmr & Hs & He).
  set (P := 2 ^ (32 - m)) in *.
  assert (HP : 0 < P) by (apply Z.pow_pos_nonneg; lia).
  assert (HM : 0 < 2 ^ m) by (apply Z.pow_pos_nonneg; lia).
  assert (HPM : 2 ^ m * P = 2 ^ 32).
  { unfold P. rewrite <- Z.pow_add_r by lia. f_equal. lia. }
  pose proof (Z.div_mod v P ltac:(lia)) as Hdm.
  pose proof (Z.mod_pos_bound v P HP) as Hmod.
  assert (Hq : 0 <= v / P < 2 ^ m).
  { split; [apply Z.div_pos; lia|]. apply Z.div_lt_upper_bound; [lia|]. lia. }
  set (s := v / P * P) in *. set (e := s + (P - 1)) in *.
  assert (Hsr : 0 <= s < 2 ^ 32) by (unfold s; nia).
  assert (Her : 0 <= e < 2 ^ 32) by (unfold e, s; nia).
  destruct (fromBigInteger_small s Hsr) as [_ HbS].
  destruct (fromBigInteger_small e Her) as [_ HbE].
  exists v, s, e, (fromBigInteger s), (fromBigInteger e),
         (fromBigInteger (s + 1)), (fromBigInteger (e - 1)).
  unfold startAddress, endAddress, startAddressExclusive, endAddressExclusive.
  rewrite Hs, He. cbn [bind]. change (new_BigInteger (js "1") 10) with 1.
  repeat split; try assumption; try reflexivity; try (unfold e, s; nia).
  - intros Hlt. apply fromBigInteger_small. lia.
  - intros Hgt. apply fromBigInteger_small. lia.
Qed.

Lemma subnet_bounds_witness :
  exists v s e aS aE aSx aEx,
    bigInteger (new_Address4 (js "192.168.1.134/26")) = Some v /\
    startAddress (new_Address4 (js "192.168.1.134/26")) = Some aS /\
    endAddress (new_Address4 (js "192.168.1.134/26")) = Some aE /\
    startAddressExclusive (new_Address4 (js "192.168.1.134/26")) = Some aSx /\
    endAddressExclusive (new_Address4 (js "192.168.1.134/26")) = Some aEx /\
    bigInteger aS = Some s /\ bigInteger aE = Some e /\
    0 <= s /\ s <= v /\ v <= e /\ e <= 2 ^ 32 - 1 /\
    (s < 2 ^ 32 - 1 -> bigInteger aSx = Some (s + 1)) /\
    (0 < e -> bigInteger aEx = Some (e - 1)).
Proof.
  apply (subnet_bounds (js "192.168.1.134/26")). reflexivity.
Defined.

(** * Further properties of the constructor *)

Lemma join_split (sep : ascii) (s : str) : join [sep] (split sep s) = s.
Proof.
  induction s as [|c s IH]; [reflexivity|].
  simpl split. destruct (Ascii.eqb_spec c sep) as [->|Hc].
  - destruct (split sep s) as [|g gs] eqn:E.
    + pose proof (split_length sep s) as Hl. rewrite E in Hl. discriminate Hl.
    + rewrite join_cons2, IH. reflexivity.
  - destruct (split sep s) as [|g gs] eqn:E.
    + pose proof (split_length sep s) as Hl. rewrite E in Hl. discriminate Hl.
    + destruct gs as [|g' t].
      * simpl in *. now rewrite IH.
      * change (join [sep] ((c :: g) :: g' :: t))
          with (c :: join [sep] (g :: g' :: t)).
        now rewrite IH.
Qed.

Lemma split_no_sep_inside (sep : ascii) (s : str) :
  Forall (fun g => ~ In sep g) (split sep s).
Proof.
  induction s as [|c s IH]; [repeat constructor; intros []|].
  simpl split. destruct (Ascii.eqb_spec c sep) as [->|Hc].
  - constructor; [intros []|assumption].
  - destruct (split sep s) as [|g gs].
    + repeat constructor. intros [H|[]]. now apply Hc.
    + inversion IH as [|? ? Hg Hgs]; subst. constructor; [|assumption].
      intros [H|H]; [now apply Hc|now apply Hg].
Qed.

(** X1.  Whatever the input, [error] is unset exactly when the object is
    valid, it is never anything but one of the two messages, and [address]
    keeps the input verbatim. *)
Theorem error_iff_invalid (input : str) :
  address (new_Address4 input) = input /\
  (isValid (new_Address4 input) = true <-> error (new_Address4 input) = None) /\
  (isValid (new_Address4 input) = false <->
     error (new_Address4 input) = Some (js "Invalid subnet mask.") \/
     error (new_Address4 input) = Some (js "Invalid IPv4 address.")).
Proof.
  unfold isValid.
  destruct (input_cases input) as [Hn|(p & ds & -> & Hne & Hd)].
  - rewrite (new_Address4_no_suffix input Hn).
    pose proof (Address4_parse_groups_spec (Address4_fields input) input)
      as (Ha & _ & _ & _ & _ & _ & Hv & He).
    cbv zeta in *. rewrite Ha, Hv, He. cbn [address valid error Address4_fields].
    destruct (RE_ADDRESS_match input); cbn [orb]; repeat split;
      intros; try discriminate; try reflexivity; try tauto.
    destruct H; discriminate.
  - rewrite (new_Address4_suffix p ds Hne Hd). cbv zeta.
    destruct (32 <? of_digits 10 ds).
    + cbn. repeat split; intros; try discriminate; try reflexivity; tauto.
    + pose proof (Address4_parse_groups_spec
                    (with_subnet (p ++ "/"%char :: ds) ds) p)
        as (Ha & _ & _ & _ & _ & _ & Hv & He).
      cbv zeta in *. rewrite Ha, Hv, He.
      cbn [address valid error with_subnet set_subnet set_subnetMask
             set_parsedSubnet Address4_fields].
      destruct (RE_ADDRESS_match p); cbn [orb]; repeat split;
        intros; try discriminate; try reflexivity; try tauto.
      destruct H; discriminate.
Qed.

Lemma pow10_len_le (ds : str) : len ds <= 15 -> 10 ^ len ds <= 10 ^ 15.
Proof.
  intros H. apply Z.pow_le_mono_r; [lia|exact H].
Qed.

(** X2.  For every input whose subnet suffix, if any, has at most fifteen
    digits (so that [parseInt] reads it exactly and [String] prints it in
    plain decimal): [subnetMask] is a non-negative integer (never [NaN])
    below [10^15] and [subnet] is ["/"] followed by that integer in decimal,
    without the leading zeros of the suffix; the mask is at most 32 on a
    valid object, and it is the default 32 when the input contains no
    ["/"]. *)
Theorem subnet_label_invariant (input : str) :
  len (parsedSubnet (new_Address4 input)) <= 15 ->
  exists m,
    0 <= m < 10 ^ 15 /\ subnetMask (new_Address4 input) = Num m /\
    subnet (new_Address4 input) = "/"%char :: digits 10 m /\
    (isValid (new_Address4 input) = true -> m <= 32) /\
    (~ In "/"%char input -> m = 32).
Proof.
  unfold isValid.
  destruct (input_cases input) as [Hn|(p & ds & -> & Hne & Hd)].
  - rewrite (new_Address4_no_suffix input Hn).
    pose proof (Address4_parse_groups_spec (Address4_fields input) input)
      as (_ & _ & _ & _ & Hs & Hm & _).
    cbv zeta in *. rewrite Hs, Hm. intros _. exists 32.
    change (10 ^ 15) with 1000000000000000. repeat split; try lia.
  - pose proof (of_digits_bound 10 ltac:(lia) ds Hd) as [Hv Hu].
    rewrite (new_Address4_suffix p ds Hne Hd). cbv zeta.
    destruct (Z.ltb_spec 32 (of_digits 10 ds)) as [Hgt|Hle].
    + cbn [parsedSubnet subnet subnetMask valid set_error set_valid with_subnet
             set_subnet set_subnetMask set_parsedSubnet Address4_fields].
      intros Hl. pose proof (pow10_len_le ds Hl) as Hp.
      exists (of_digits 10 ds).
      rewrite String_of_number_nonneg by lia.
      repeat split; try assumption; try discriminate; try lia.
      intros Hin. exfalso. apply Hin. apply in_or_app. right. now left.
    + pose proof (Address4_parse_groups_spec
                    (with_subnet (p ++ "/"%char :: ds) ds) p)
        as (_ & _ & _ & Hps & Hs & Hm & _).
      cbv zeta in *. rewrite Hps, Hs, Hm.
      cbn [parsedSubnet subnet subnetMask with_subnet set_subnet set_subnetMask
             set_parsedSubnet].
      intros Hl. pose proof (pow10_len_le ds Hl) as Hp.
      exists (of_digits 10 ds).
      rewrite String_of_number_nonneg by lia.
      repeat split; try assumption; try lia.
      intros Hin. exfalso. apply Hin. apply in_or_app. right. now left.
Qed.

Lemma subnet_label_invariant_witness :
  exists m,
    0 <= m < 10 ^ 15 /\ subnetMask (new_Address4 (js "10.0.0.1/08")) = Num m /\
    subnet (new_Address4 (js "10.0.0.1/08")) = "/"%char :: digits 10 m /\
    (isValid (new_Address4 (js "10.0.0.1/08")) = true -> m <= 32) /\
    (~ In "/"%char (js "10.0.0.1/08") -> m = 32).
Proof.
  apply (subnet_label_invariant (js "10.0.0.1/08")). vm_compute. discriminate.
Defined.

(** X3.  When group parsing runs, joining [parsedAddress] with periods gives
    the suffix-free address back, and no parsed group contains a period. *)
Theorem parsedAddress_join (input s : str) :
  addressMinusSuffix (new_Address4 input) = Some s ->
  join (js ".") (parsedAddress (new_Address4 input)) = s /\
  Forall (fun g => ~ In "."%char g) (parsedAddress (new_Address4 input)).
Proof.
  intros Hs. destruct (new_Address4_parsed input s Hs) as (Hpa & _).
  rewrite Hpa. split.
  - apply (join_split "."%char).
  - apply split_no_sep_inside.
Qed.

Lemma parsedAddress_join_witness :
  join (js ".") (parsedAddress (new_Address4 (js "1..x.4.5/8"))) = js "1..x.4.5" /\
  Forall (fun g => ~ In "."%char g) (parsedAddress (new_Address4 (js "1..x.4.5/8"))).
Proof.
  apply (parsedAddress_join (js "1..x.4.5/8") (js "1..x.4.5")). reflexivity.
Defined.

(** X4.  When group parsing runs, the input is accounted for: either no
    suffix was read, the suffix-free address is the whole input and the mask
    is the default 32; or the input is the suffix-free address, a ["/"] and
    [parsedSubnet], a non-empty string of decimal digits whose value, at
    most 32, is [subnetMask]. *)
Theorem input_decomposition (input s : str) :
  addressMinusSuffix (new_Address4 input) = Some s ->
  (s = input /\ parsedSubnet (new_Address4 input) = [] /\
   subnetMask (new_Address4 input) = Num 32) \/
  (input = s ++ "/"%char :: parsedSubnet (new_Address4 input) /\
   parsedSubnet (new_Address4 input) <> [] /\
   forallb (is_digit 10) (parsedSubnet (new_Address4 input)) = true /\
   subnetMask (new_Address4 input)
     = Num (of_digits 10 (parsedSubnet (new_Address4 input))) /\
   of_digits 10 (parsedSubnet (new_Address4 input)) <= 32).
Proof.
  destruct (input_cases input) as [Hn|(p & ds & -> & Hne & Hd)].
  - rewrite (new_Address4_no_suffix input Hn).
    pose proof (Address4_parse_groups_spec (Address4_fields input) input)
      as (_ & Hms & _ & Hps & _ & Hm & _).
    cbv zeta in *. rewrite Hms, Hps, Hm. intros [= <-]. left.
    repeat split.
  - rewrite (new_Address4_suffix p ds Hne Hd). cbv zeta.
    destruct (Z.ltb_spec 32 (of_digits 10 ds)) as [Hgt|Hle].
    + cbn. discriminate.
    + pose proof (Address4_parse_groups_spec
                    (with_subnet (p ++ "/"%char :: ds) ds) p)
        as (_ & Hms & _ & Hps & _ & Hm & _).
      cbv zeta in *. rewrite Hms, Hps, Hm. intros [= <-]. right.
      cbn [parsedSubnet subnetMask with_subnet set_subnet set_subnetMask
             set_parsedSubnet].
      repeat split; assumption.
Qed.

Lemma input_decomposition_witness :
  (js "10.0.0.1" = js "10.0.0.1/024" /\
   parsedSubnet (new_Address4 (js "10.0.0.1/024")) = [] /\
   subnetMask (new_Address4 (js "10.0.0.1/024")) = Num 32) \/
  (js "10.0.0.1/024"
     = js "10.0.0.1" ++ "/"%char :: parsedSubnet (new_Address4 (js "10.0.0.1/024")) /\
   parsedSubnet (new_Address4 (js "10.0.0.1/024")) <> [] /\
   forallb (is_digit 10) (parsedSubnet (new_Address4 (js "10.0.0.1/024"))) = true /\
   subnetMask (new_Address4 (js "10.0.0.1/024"))
     = Num (of_digits 10 (parsedSubnet (new_Address4 (js "10.0.0.1/024")))) /\
   of_digits 10 (parsedSubnet (new_Address4 (js "10.0.0.1/024"))) <= 32).
Proof.
  apply (input_decomposition (js "10.0.0.1/024") (js "10.0.0.1")). reflexivity.
Defined.

(** * Further properties of the conversions *)

Lemma groups_bytes (a : Address4) (g0 g1 g2 g3 : str) :
  groups_of a g0 g1 g2 g3 ->
  0 <= of_digits 10 g0 <= 255 /\ 0 <= of_digits 10 g1 <= 255 /\
  0 <= of_digits 10 g2 <= 255 /\ 0 <= of_digits 10 g3 <= 255.
Proof.
  intros (_ & _ & H0 & H1 & H2 & H3).
  apply parseInt_octet in H0 as [_ B0]. apply parseInt_octet in H1 as [_ B1].
  apply parseInt_octet in H2 as [_ B2]. apply parseInt_octet in H3 as [_ B3].
  repeat split; lia.
Qed.

(** Two bytes written by [sprintf('%02x%02x', ...)] and read back in base
    16. *)
Lemma parseInt_hex_pair (x y : Z) :
  0 <= x <= 255 -> 0 <= y <= 255 ->
  parseInt (sprintf_02x (Num x) ++ sprintf_02x (Num y)) 16 = Num (x * 256 + y).
Proof.
  intros Hx Hy.
  destruct (sprintf_02x_byte x Hx) as (Lx & Dx & Vx).
  destruct (sprintf_02x_byte y Hy) as (Ly & Dy & Vy).
  rewrite parseInt_digits.
  - rewrite (of_digits_app 16), Ly, Vx, Vy by lia. reflexivity.
  - intros E. apply (f_equal len) in E. rewrite len_app, Lx, Ly in E. discriminate E.
  - now rewrite forallb_app, Dx, Dy.
Qed.

Lemma sprintf_x_small (v : Z) : 0 <= v < 2 ^ 32 -> sprintf_x (Num v) = digits 16 v.
Proof.
  intros H. unfold sprintf_x, toInteger. now rewrite Z.mod_small.
Qed.

(** X5.  On a valid address with bytes [b0..b3], [toGroup6()] is the two
    16-bit halves [b0*256+b1] and [b2*256+b3] in hexadecimal without leading
    zeros, at most four digits each, separated by one colon; read back in
    base 16 the two halves give [bigInteger()]. *)
Theorem toGroup6_valid (input : str) :
  isValid (new_Address4 input) = true ->
  exists b0 b1 b2 b3 hi lo,
    toArray (new_Address4 input) = [Num b0; Num b1; Num b2; Num b3] /\
    hi = digits 16 (b0 * 256 + b1) /\ lo = digits 16 (b2 * 256 + b3) /\
    toGroup6 (new_Address4 input) = hi ++ js ":" ++ lo /\
    split ":"%char (toGroup6 (new_Address4 input)) = [hi; lo] /\
    1 <= len hi <= 4 /\ 1 <= len lo <= 4 /\
    bigInteger (new_Address4 input)
      = Some (of_digits 16 hi * 2 ^ 16 + of_digits 16 lo).
Proof.
  unfold isValid. intros Hv.
  destruct (valid_groups_of input Hv) as (g0 & g1 & g2 & g3 & Hg).
  destruct (groups_bytes _ _ _ _ _ Hg) as (B0 & B1 & B2 & B3).
  destruct (groups_bigInteger _ _ _ _ _ Hg) as [Hb _].
  pose proof (groups_toArray _ _ _ _ _ Hg) as Hta.
  pose proof Hg as (_ & Hpa & H0 & H1 & H2 & H3).
  apply parseInt_octet in H0 as [E0 _]. apply parseInt_octet in H1 as [E1 _].
  apply parseInt_octet in H2 as [E2 _]. apply parseInt_octet in H3 as [E3 _].
  set (b0 := of_digits 10 g0) in *. set (b1 := of_digits 10 g1) in *.
  set (b2 := of_digits 10 g2) in *. set (b3 := of_digits 10 g3) in *.
  assert (Hhi : 0 <= b0 * 256 + b1 < 16 ^ 4) by (change (16 ^ 4) with 65536; lia).
  assert (Hlo : 0 <= b2 * 256 + b3 < 16 ^ 4) by (change (16 ^ 4) with 65536; lia).
  assert (Htg : toGroup6 (new_Address4 input)
                = digits 16 (b0 * 256 + b1) ++ js ":" ++ digits 16 (b2 * 256 + b3)).
  { unfold toGroup6, parsedAddress_at. rewrite Hpa. cbn [map].
    change (nth (Z.to_nat 0) [g0; g1; g2; g3] (js "undefined")) with g0.
    change (nth (Z.to_nat (0 + 1)) [g0; g1; g2; g3] (js "undefined")) with g1.
    change (nth (Z.to_nat 2) [g0; g1; g2; g3] (js "undefined")) with g2.
    change (nth (Z.to_nat (2 + 1)) [g0; g1; g2; g3] (js "undefined")) with g3.
    rewrite E0, E1, E2, E3, !parseInt_hex_pair by assumption.
    rewrite !sprintf_x_small by (change (2 ^ 32) with 4294967296; change (16 ^ 4) with 65536 in *; lia).
    reflexivity. }
  exists b0, b1, b2, b3, (digits 16 (b0 * 256 + b1)), (digits 16 (b2 * 256 + b3)).
  repeat split; try assumption.
  - rewrite Htg.
    apply (split_join ":"%char [digits 16 (b0 * 256 + b1); digits 16 (b2 * 256 + b3)]);
      [discriminate|].
    repeat constructor; apply (digits_no_char 16);
      try reflexivity; apply (digits_all 16); lia.
  - pose proof (digits_nonempty 16 ltac:(lia) (b0 * 256 + b1) ltac:(lia)) as Hne.
    destruct (digits 16 (b0 * 256 + b1)); [congruence|].
    rewrite len_cons. pose proof (len_nonneg s). lia.
  - apply (digits_len_le 16); lia.
  - pose proof (digits_nonempty 16 ltac:(lia) (b2 * 256 + b3) ltac:(lia)) as Hne.
    destruct (digits 16 (b2 * 256 + b3)); [congruence|].
    rewrite len_cons. pose proof (len_nonneg s). lia.
  - apply (digits_len_le 16); lia.
  - rewrite Hb, !(digits_value 16) by lia. cbn [map]. fold b0 b1 b2 b3.
    unfold of_bytes. cbn [fold_left]. f_equal. change (2 ^ 16) with 65536. lia.
Qed.

Lemma toGroup6_valid_witness :
  exists b0 b1 b2 b3 hi lo,
    toArray (new_Address4 (js "0.0.0.1")) = [Num b0; Num b1; Num b2; Num b3] /\
    hi = digits 16 (b0 * 256 + b1) /\ lo = digits 16 (b2 * 256 + b3) /\
    toGroup6 (new_Address4 (js "0.0.0.1")) = hi ++ js ":" ++ lo /\
    split ":"%char (toGroup6 (new_Address4 (js "0.0.0.1"))) = [hi; lo] /\
    1 <= len hi <= 4 /\ 1 <= len lo <= 4 /\
    bigInteger (new_Address4 (js "0.0.0.1"))
      = Some (of_digits 16 hi * 2 ^ 16 + of_digits 16 lo).
Proof.
  apply (toGroup6_valid (js "0.0.0.1")). reflexivity.
Defined.

(** X6.  On an object whose construction stopped at the mask guard (a
    suffix above 32), the conversions work on the empty [parsedAddress]:
    [correctForm()] and [toHex()] are the empty string, [toArray()] is
    empty, [toGroup6()] reads [undefined] groups and is "0:0"; [bigInteger()]
    is [null] and the four boundary methods raise. *)
Theorem invalid_mask_accessors (p ds : str) :
  ds <> [] -> forallb (is_digit 10) ds = true -> 32 < of_digits 10 ds ->
  correctForm (new_Address4 (p ++ "/"%char :: ds)) = [] /\
  toHex (new_Address4 (p ++ "/"%char :: ds)) = [] /\
  toArray (new_Address4 (p ++ "/"%char :: ds)) = [] /\
  toGroup6 (new_Address4 (p ++ "/"%char :: ds)) = js "0:0" /\
  bigInteger (new_Address4 (p ++ "/"%char :: ds)) = None /\
  startAddress (new_Address4 (p ++ "/"%char :: ds)) = None /\
  endAddress (new_Address4 (p ++ "/"%char :: ds)) = None /\
  startAddressExclusive (new_Address4 (p ++ "/"%char :: ds)) = None /\
  endAddressExclusive (new_Address4 (p ++ "/"%char :: ds)) = None.
Proof.
  intros Hne Hd Hgt. rewrite (new_Address4_suffix p ds Hne Hd). cbv zeta.
  destruct (Z.ltb_spec 32 (of_digits 10 ds)); [|lia].
  repeat split.
Qed.

Lemma invalid_mask_accessors_witness :
  correctForm (new_Address4 (js "1.2.3.4/33")) = [] /\
  toHex (new_Address4 (js "1.2.3.4/33")) = [] /\
  toArray (new_Address4 (js "1.2.3.4/33")) = [] /\
  toGroup6 (new_Address4 (js "1.2.3.4/33")) = js "0:0" /\
  bigInteger (new_Address4 (js "1.2.3.4/33")) = None /\
  startAddress (new_Address4 (js "1.2.3.4/33")) = None /\
  endAddress (new_Address4 (js "1.2.3.4/33")) = None /\
  startAddressExclusive (new_Address4 (js "1.2.3.4/33")) = None /\
  endAddressExclusive (new_Address4 (js "1.2.3.4/33")) = None.
Proof.
  apply (invalid_mask_accessors (js "1.2.3.4") (js "33")).
  - discriminate.
  - reflexivity.
  - vm_compute. reflexivity.
Defined.

(** X7.  On a valid address [toHex()] is eleven characters: four pairs of
    hexadecimal digits separated by colons, and the pairs read back in base
    16 are the entries of [toArray()]. *)
Theorem toHex_format (input : str) :
  isValid (new_Address4 input) = true ->
  exists h0 h1 h2 h3,
    toHex (new_Address4 input)
      = h0 ++ js ":" ++ h1 ++ js ":" ++ h2 ++ js ":" ++ h3 /\
    len (toHex (new_Address4 input)) = 11 /\
    len h0 = 2 /\ len h1 = 2 /\ len h2 = 2 /\ len h3 = 2 /\
    forallb (is_digit 16) (h0 ++ h1 ++ h2 ++ h3) = true /\
    split ":"%char (toHex (new_Address4 input)) = [h0; h1; h2; h3] /\
    toArray (new_Address4 input)
      = [parseInt h0 16; parseInt h1 16; parseInt h2 16; parseInt h3 16].
Proof.
  unfold isValid. intros Hv.
  destruct (valid_groups_of input Hv) as (g0 & g1 & g2 & g3 & Hg).
  destruct (groups_bytes _ _ _ _ _ Hg) as (B0 & B1 & B2 & B3).
  rewrite (groups_toHex _ _ _ _ _ Hg), (groups_toArray _ _ _ _ _ Hg). cbn [map join].
  destruct (sprintf_02x_byte _ B0) as (L0 & D0 & V0).
  destruct (sprintf_02x_byte _ B1) as (L1 & D1 & V1).
  destruct (sprintf_02x_byte _ B2) as (L2 & D2 & V2).
  destruct (sprintf_02x_byte _ B3) as (L3 & D3 & V3).
  assert (N : forall h, len h = 2 -> h <> []).
  { intros h L E. rewrite E in L. discriminate L. }
  exists (sprintf_02x (Num (of_digits 10 g0))), (sprintf_02x (Num (of_digits 10 g1))),
         (sprintf_02x (Num (of_digits 10 g2))), (sprintf_02x (Num (of_digits 10 g3))).
  repeat split; try assumption.
  - rewrite !len_app, L0, L1, L2, L3. reflexivity.
  - now rewrite !forallb_app, D0, D1, D2, D3.
  - apply (split_join ":"%char
             [sprintf_02x (Num (of_digits 10 g0)); sprintf_02x (Num (of_digits 10 g1));
              sprintf_02x (Num (of_digits 10 g2)); sprintf_02x (Num (of_digits 10 g3))]);
      [discriminate|].
    repeat constructor; apply (digits_no_char 16); try assumption; reflexivity.
  - rewrite !parseInt_digits by (try assumption; now apply N).
    now rewrite V0, V1, V2, V3.
Qed.

Lemma toHex_format_witness :
  exists h0 h1 h2 h3,
    toHex (new_Address4 (js "1.2.3.4"))
      = h0 ++ js ":" ++ h1 ++ js ":" ++ h2 ++ js ":" ++ h3 /\
    len (toHex (new_Address4 (js "1.2.3.4"))) = 11 /\
    len h0 = 2 /\ len h1 = 2 /\ len h2 = 2 /\ len h3 = 2 /\
    forallb (is_digit 16) (h0 ++ h1 ++ h2 ++ h3) = true /\
    split ":"%char (toHex (new_Address4 (js "1.2.3.4"))) = [h0; h1; h2; h3] /\
    toArray (new_Address4 (js "1.2.3.4"))
      = [parseInt h0 16; parseInt h1 16; parseInt h2 16; parseInt h3 16].
Proof.
  apply (toHex_format (js "1.2.3.4")). reflexivity.
Defined.

(** X8.  On a valid address [bigInteger()] is a value [v] below [2^32] and
    [toArray()] is the four big-endian bytes of [v]. *)
Theorem toArray_bytes_of_bigInteger (input : str) :
  isValid (new_Address4 input) = true ->
  exists v,
    bigInteger (new_Address4 input) = Some v /\ 0 <= v < 2 ^ 32 /\
    toArray (new_Address4 input) = map Num (bytes_of v).
Proof.
  unfold isValid. intros Hv.
  destruct (valid_groups_of input Hv) as (g0 & g1 & g2 & g3 & Hg).
  destruct (groups_bytes _ _ _ _ _ Hg) as (B0 & B1 & B2 & B3).
  destruct (groups_bigInteger _ _ _ _ _ Hg) as [Hb Hr].
  exists (of_bytes (map (of_digits 10) [g0; g1; g2; g3])).
  repeat split; try assumption; try lia.
  rewrite (groups_toArray _ _ _ _ _ Hg). cbn [map] in *.
  now destruct (bytes_of_of_bytes _ _ _ _ B0 B1 B2 B3) as [-> _].
Qed.

Lemma toArray_bytes_of_bigInteger_witness :
  exists v,
    bigInteger (new_Address4 (js "192.168.1.134/26")) = Some v /\ 0 <= v < 2 ^ 32 /\
    toArray (new_Address4 (js "192.168.1.134/26")) = map Num (bytes_of v).
Proof.
  apply (toArray_bytes_of_bigInteger (js "192.168.1.134/26")). reflexivity.
Defined.

(** X9.  [fromHex] accepts zero to eight hexadecimal digits in either case,
    with colons anywhere: the result is a valid address with mask 32 whose
    value is the digits read in base 16 (the empty string gives 0.0.0.0). *)
Theorem fromHex_value (h : str) :
  len (remove_char ":"%char h) <= 8 ->
  forallb (is_digit 16) (remove_char ":"%char h) = true ->
  isValid (fromHex h) = true /\
  subnetMask (fromHex h) = Num 32 /\
  bigInteger (fromHex h) = Some (of_digits 16 (remove_char ":"%char h)) /\
  toArray (fromHex h) = map Num (bytes_of (of_digits 16 (remove_char ":"%char h))).
Proof.
  intros L D. rewrite fromHex_remove_colons. unfold isValid.
  set (d := remove_char ":"%char h) in *.
  destruct d as [|c t] eqn:E.
  - repeat split.
  - assert (Hv : 0 <= of_digits 16 (c :: t) < 2 ^ 32).
    { pose proof (of_digits_bound 16 ltac:(lia) _ D) as Hb.
      assert (16 ^ len (c :: t) <= 16 ^ 8)
        by (apply Z.pow_le_mono_r; [lia|exact L]).
      change (2 ^ 32) with (16 ^ 8). lia. }
    rewrite fromHex_digits by (try assumption; discriminate).
    destruct (address_of_value _ Hv) as (V & M & T & _ & B).
    repeat split; assumption.
Qed.

Lemma fromHex_value_witness :
  isValid (fromHex (js "C0:a8:1:86")) = true /\
  subnetMask (fromHex (js "C0:a8:1:86")) = Num 32 /\
  bigInteger (fromHex (js "C0:a8:1:86"))
    = Some (of_digits 16 (remove_char ":"%char (js "C0:a8:1:86"))) /\
  toArray (fromHex (js "C0:a8:1:86"))
    = map Num (bytes_of (of_digits 16 (remove_char ":"%char (js "C0:a8:1:86")))).
Proof.
  apply (fromHex_value (js "C0:a8:1:86")).
  - vm_compute. discriminate.
  - reflexivity.
Defined.

(** X10.  For every integer [n] in [0, 2^32-1], [fromInteger(n)] is a valid
    address with mask 32 and [bigInteger()] gives [n] back. *)
Theorem fromInteger_bigInteger (n : Z) :
  0 <= n < 2 ^ 32 ->
  isValid (fromInteger (Num n)) = true /\
  subnetMask (fromInteger (Num n)) = Num 32 /\
  bigInteger (fromInteger (Num n)) = Some n.
Proof.
  intros H. rewrite (fromInteger_small n H).
  destruct (address_of_value n H) as (V & M & _ & _ & B).
  repeat split; assumption.
Qed.

Lemma fromInteger_bigInteger_witness :
  isValid (fromInteger (Num 3232235910)) = true /\
  subnetMask (fromInteger (Num 3232235910)) = Num 32 /\
  bigInteger (fromInteger (Num 3232235910)) = Some 3232235910.
Proof.
  apply (fromInteger_bigInteger 3232235910). vm_compute. split; congruence.
Defined.

Lemma fromBigInteger_bytes (z : Z) :
  0 <= z < 2 ^ 32 ->
  fromBigInteger z
  = new_Address4 (join (js ".") (map String_of_number (map Num (bytes_of z)))).
Proof.
  intros H. unfold fromBigInteger, BigInteger_toString.
  rewrite Number_toString_nonneg by lia.
  rewrite parseInt_digits
    by (try (apply (digits_nonempty 10); lia); apply (digits_all 10); lia).
  rewrite (digits_value 10) by lia.
  apply (fromInteger_small z H).
Qed.

(** X11.  Converting a valid address to its big integer and back with
    [fromBigInteger] gives an address with the same bytes, the same
    canonical form and the same value; the mask is not carried over, the
    result has mask 32. *)
Theorem fromBigInteger_bigInteger (input : str) (v : Z) :
  isValid (new_Address4 input) = true ->
  bigInteger (new_Address4 input) = Some v ->
  isValid (fromBigInteger v) = true /\
  toArray (fromBigInteger v) = toArray (new_Address4 input) /\
  correctForm (fromBigInteger v) = correctForm (new_Address4 input) /\
  bigInteger (fromBigInteger v) = Some v /\
  subnetMask (fromBigInteger v) = Num 32.
Proof.
  unfold isValid. intros Hv Hb.
  destruct (valid_groups_of input Hv) as (g0 & g1 & g2 & g3 & Hg).
  destruct (groups_bytes _ _ _ _ _ Hg) as (B0 & B1 & B2 & B3).
  destruct (groups_bigInteger _ _ _ _ _ Hg) as [Hb' Hr].
  rewrite Hb in Hb'. injection Hb' as ->. cbn [map] in Hr.
  rewrite (fromBigInteger_bytes _ Hr).
  destruct (address_of_value _ Hr) as (V & M & T & C & B).
  cbv zeta in *. rewrite T, C.
  rewrite (groups_toArray _ _ _ _ _ Hg), (groups_correctForm _ _ _ _ _ Hg).
  cbn [map] in *.
  destruct (bytes_of_of_bytes _ _ _ _ B0 B1 B2 B3) as [Eb _].
  rewrite Eb in *.
  repeat split; assumption.
Qed.

Lemma fromBigInteger_bigInteger_witness :
  isValid (fromBigInteger 3232235910) = true /\
  toArray (fromBigInteger 3232235910) = toArray (new_Address4 (js "192.168.001.134/26")) /\
  correctForm (fromBigInteger 3232235910)
    = correctForm (new_Address4 (js "192.168.001.134/26")) /\
  bigInteger (fromBigInteger 3232235910) = Some 3232235910 /\
  subnetMask (fromBigInteger 3232235910) = Num 32.
Proof.
  apply (fromBigInteger_bigInteger (js "192.168.001.134/26") 3232235910); reflexivity.
Defined.

(** X12.  The canonical form of a valid address is itself a valid address
    with the same bytes, and it is its own canonical form: [correctForm] is
    idempotent through the constructor. *)
Theorem correctForm_reparse (input : str) :
  isValid (new_Address4 input) = true ->
  isValid (new_Address4 (correctForm (new_Address4 input))) = true /\
  toArray (new_Address4 (correctForm (new_Address4 input)))
    = toArray (new_Address4 input) /\
  correctForm (new_Address4 (correctForm (new_Address4 input)))
    = correctForm (new_Address4 input) /\
  parsedAddress (new_Address4 (correctForm (new_Address4 input)))
    = split "."%char (correctForm (new_Address4 input)).
Proof.
  unfold isValid. intros Hv.
  destruct (valid_groups_of input Hv) as (g0 & g1 & g2 & g3 & Hg).
  destruct (groups_bytes _ _ _ _ _ Hg) as (B0 & B1 & B2 & B3).
  rewrite (groups_correctForm _ _ _ _ _ Hg), (groups_toArray _ _ _ _ _ Hg).
  destruct (new_Address4_bytes _ _ _ _ B0 B1 B2 B3) as [Hg' _].
  cbv zeta in Hg'. cbn [map] in *. rewrite !String_of_number_nonneg in Hg' by lia.
  unfold canonical.
  pose proof Hg' as (V & Hpa & _).
  rewrite (groups_toArray _ _ _ _ _ Hg'), (groups_correctForm _ _ _ _ _ Hg').
  cbn [map]. unfold canonical. rewrite !(digits_value 10) by lia.
  repeat split; try assumption.
  rewrite Hpa. symmetry.
  apply (split_join "."%char
           [digits 10 (of_digits 10 g0); digits 10 (of_digits 10 g1);
            digits 10 (of_digits 10 g2); digits 10 (of_digits 10 g3)]);
    [discriminate|].
  repeat constructor; apply (digits_no_char 10);
    try reflexivity; apply (digits_all 10); lia.
Qed.

Lemma correctForm_reparse_witness :
  isValid (new_Address4 (correctForm (new_Address4 (js "010.001.000.255/8")))) = true /\
  toArray (new_Address4 (correctForm (new_Address4 (js "010.001.000.255/8"))))
    = toArray (new_Address4 (js "010.001.000.255/8")) /\
  correctForm (new_Address4 (correctForm (new_Address4 (js "010.001.000.255/8"))))
    = correctForm (new_Address4 (js "010.001.000.255/8")) /\
  parsedAddress (new_Address4 (correctForm (new_Address4 (js "010.001.000.255/8"))))
    = split "."%char (correctForm (new_Address4 (js "010.001.000.255/8"))).
Proof.
  apply (correctForm_reparse (js "010.001.000.255/8")). reflexivity.
Defined.

Lemma lower_hex_cases (c : ascii) :
  lower_hex c = true -> In c (js "0123456789abcdef").
Proof.
  unfold lower_hex. intros H. apply existsb_exists in H as (x & Hin & Hx).
  apply Ascii.eqb_eq in Hx. now subst.
Qed.

(** Two lower-case hexadecimal digits are what [sprintf('%02x')] writes for
    their value. *)
Lemma lower_hex_pair (c0 c1 : ascii) :
  lower_hex c0 = true -> lower_hex c1 = true ->
  sprintf_02x (Num (of_digits 16 [c0; c1])) = [c0; c1] /\
  forallb (is_digit 16) [c0; c1] = true.
Proof.
  intros H0 H1. apply lower_hex_cases in H0. apply lower_hex_cases in H1.
  simpl in H0, H1.
  repeat (destruct H0 as [<-|H0]; [|]); try contradiction;
    repeat (destruct H1 as [<-|H1]; [|]); try contradiction;
    split; vm_compute; reflexivity.
Qed.

(** X13.  Eight lower-case hexadecimal digits survive the round trip through
    [fromHex] and [toHex]: the result is the same digits in pairs separated
    by colons. *)
Theorem toHex_fromHex (c0 c1 c2 c3 c4 c5 c6 c7 : ascii) :
  forallb lower_hex [c0; c1; c2; c3; c4; c5; c6; c7] = true ->
  toHex (fromHex [c0; c1; c2; c3; c4; c5; c6; c7])
  = [c0; c1; ":"%char; c2; c3; ":"%char; c4; c5; ":"%char; c6; c7].
Proof.
  intros H. cbn [forallb] in H. rewrite !andb_true_iff in H.
  destruct H as (L0 & L1 & L2 & L3 & L4 & L5 & L6 & L7 & _).
  destruct (lower_hex_pair c0 c1 L0 L1) as [P0 D0].
  destruct (lower_hex_pair c2 c3 L2 L3) as [P1 D1].
  destruct (lower_hex_pair c4 c5 L4 L5) as [P2 D2].
  destruct (lower_hex_pair c6 c7 L6 L7) as [P3 D3].
  set (h := [c0; c1; c2; c3; c4; c5; c6; c7]).
  assert (D : forallb (is_digit 16) h = true).
  { change h with ([c0; c1] ++ [c2; c3] ++ [c4; c5] ++ [c6; c7]).
    now rewrite !forallb_app, D0, D1, D2, D3. }
  assert (R : forall p, forallb (is_digit 16) p = true -> len p = 2 ->
                        0 <= of_digits 16 p <= 255).
  { intros p Hp Lp. pose proof (of_digits_bound 16 ltac:(lia) p Hp) as Hb.
    rewrite Lp in Hb. change (16 ^ 2) with 256 in Hb. lia. }
  pose proof (R _ D0 eq_refl) as B0. pose proof (R _ D1 eq_refl) as B1.
  pose proof (R _ D2 eq_refl) as B2. pose proof (R _ D3 eq_refl) as B3.
  assert (Hg : hex_groups h
               = [Num (of_digits 16 [c0; c1]); Num (of_digits 16 [c2; c3]);
                  Num (of_digits 16 [c4; c5]); Num (of_digits 16 [c6; c7])]).
  { change (hex_groups h)
      with [parseInt [c0; c1] 16; parseInt [c2; c3] 16;
            parseInt [c4; c5] 16; parseInt [c6; c7] 16].
    now rewrite !parseInt_digits by (assumption || discriminate). }
  rewrite fromHex_unfold.
  rewrite remove_char_absent by (apply (digits_no_char 16); [exact D|reflexivity]).
  change (padStart h 8 "0"%char) with h. rewrite Hg.
  destruct (new_Address4_bytes _ _ _ _ B0 B1 B2 B3) as [G _]. cbv zeta in G.
  rewrite (groups_toHex _ _ _ _ _ G). cbn [map join].
  rewrite !(digits_value 10) by lia.
  rewrite P0, P1, P2, P3. reflexivity.
Qed.

Lemma toHex_fromHex_witness :
  toHex (fromHex (js "c0a80186")) = js "c0:a8:01:86".
Proof.
  apply (toHex_fromHex "c" "0" "a" "8" "0" "1" "8" "6"). reflexivity.
Defined.

(** * Further properties of the binary form and the subnet bounds *)

Lemma is_digit_2_cases (c : ascii) :
  is_digit 2 c = true -> c = "0"%char \/ c = "1"%char.
Proof.
  intros H. apply is_digit_dval in H as [Hv Hr].
  assert (Hc : code c = 48 \/ code c = 49).
  { remember (dval c) as d eqn:Ed. clear Ed.
    unfold digit_val in Hv. zbh Hv; inversion Hv; lia. }
  unfold code in Hc. rewrite <- (ascii_N_embedding c).
  destruct Hc as [Hc|Hc]; [left|right].
  - replace (N_of_ascii c) with 48%N by lia. reflexivity.
  - replace (N_of_ascii c) with 49%N by lia. reflexivity.
Qed.

Lemma firstn_plus {A : Type} (a b : nat) (l : list A) :
  firstn (a + b) l = firstn a l ++ firstn b (skipn a l).
Proof.
  revert l. induction a as [|a IH]; intros l; [reflexivity|].
  destruct l as [|x l]; simpl.
  - now rewrite firstn_nil.
  - now rewrite IH.
Qed.

(** X14.  On a valid address [binaryZeroPad()] is exactly 32 characters,
    each "0" or "1", and read in base 2 (as [new BigInteger(s, 2)] does) it
    is the value of [bigInteger()]. *)
Theorem binaryZeroPad_format (input : str) :
  isValid (new_Address4 input) = true ->
  exists v bits,
    bigInteger (new_Address4 input) = Some v /\
    binaryZeroPad (new_Address4 input) = Some bits /\
    len bits = 32 /\
    Forall (fun c => c = "0"%char \/ c = "1"%char) bits /\
    new_BigInteger bits 2 = v.
Proof.
  unfold isValid. intros Hv.
  destruct (binaryZeroPad_valid input Hv)
    as (v & bits & m & Hb & _ & Hz & L & D & V & _).
  exists v, bits. repeat split; try assumption.
  - apply Forall_forall. intros c Hc. rewrite forallb_forall in D.
    apply is_digit_2_cases. now apply D.
  - now rewrite new_BigInteger_digits.
Qed.

Lemma binaryZeroPad_format_witness :
  exists v bits,
    bigInteger (new_Address4 (js "10.0.0.1")) = Some v /\
    binaryZeroPad (new_Address4 (js "10.0.0.1")) = Some bits /\
    len bits = 32 /\
    Forall (fun c => c = "0"%char \/ c = "1"%char) bits /\
    new_BigInteger bits 2 = v.
Proof.
  apply (binaryZeroPad_format (js "10.0.0.1")). reflexivity.
Defined.

(** X15.  On a valid address, for [0 <= i <= j <= k <= 32],
    [getBitsBase2(i, j)] has [j - i] characters, adjacent ranges
    concatenate, and the full range is [binaryZeroPad()]. *)
Theorem getBitsBase2_ranges (input : str) (i j k : Z) :
  isValid (new_Address4 input) = true ->
  0 <= i <= j -> j <= k <= 32 ->
  exists x y,
    getBitsBase2 (new_Address4 input) (Num i) (Num j) = Some x /\
    getBitsBase2 (new_Address4 input) (Num j) (Num k) = Some y /\
    len x = j - i /\ len y = k - j /\
    getBitsBase2 (new_Address4 input) (Num i) (Num k) = Some (x ++ y) /\
    getBitsBase2 (new_Address4 input) (Num 0) (Num 32)
      = binaryZeroPad (new_Address4 input).
Proof.
  unfold isValid. intros Hv Hi Hk.
  destruct (binaryZeroPad_valid input Hv) as (v & bits & m & _ & _ & Hz & L & _).
  unfold getBitsBase2. rewrite Hz. cbn [bind].
  rewrite !slice_firstn_skipn by lia.
  exists (firstn (Z.to_nat (j - i)) (skipn (Z.to_nat i) bits)),
         (firstn (Z.to_nat (k - j)) (skipn (Z.to_nat j) bits)).
  unfold len in *. repeat split.
  - rewrite length_firstn, length_skipn. lia.
  - rewrite length_firstn, length_skipn. lia.
  - f_equal.
    replace (Z.to_nat (k - i)) with (Z.to_nat (j - i) + Z.to_nat (k - j))%nat by lia.
    rewrite firstn_plus. f_equal. rewrite skipn_skipn.
    f_equal. f_equal. lia.
  - f_equal. change (Z.to_nat 0) with 0%nat. cbn [skipn].
    apply firstn_all2. lia.
Qed.

Lemma getBitsBase2_ranges_witness :
  exists x y,
    getBitsBase2 (new_Address4 (js "10.0.0.1")) (Num 0) (Num 8) = Some x /\
    getBitsBase2 (new_Address4 (js "10.0.0.1")) (Num 8) (Num 32) = Some y /\
    len x = 8 - 0 /\ len y = 32 - 8 /\
    getBitsBase2 (new_Address4 (js "10.0.0.1")) (Num 0) (Num 32) = Some (x ++ y) /\
    getBitsBase2 (new_Address4 (js "10.0.0.1")) (Num 0) (Num 32)
      = binaryZeroPad (new_Address4 (js "10.0.0.1")).
Proof.
  apply (getBitsBase2_ranges (js "10.0.0.1") 0 8 32); [reflexivity|lia|lia].
Defined.

(** X16.  On a valid address with value [v], [mask(n)] for [0 <= n <= 32] is
    the first [n] characters of the binary form: it has length [n] and, read
    in base 2, is [v / 2^(32-n)]; [mask()] without an argument is [mask] at
    the address's own [subnetMask]. *)
Theorem mask_value (input : str) (n : Z) :
  isValid (new_Address4 input) = true -> 0 <= n <= 32 ->
  exists v p,
    bigInteger (new_Address4 input) = Some v /\
    mask (new_Address4 input) (Some (Num n)) = Some p /\
    len p = n /\ forallb (is_digit 2) p = true /\
    of_digits 2 p = v / 2 ^ (32 - n) /\
    mask (new_Address4 input) None
      = mask (new_Address4 input) (Some (subnetMask (new_Address4 input))).
Proof.
  unfold isValid. intros Hv Hn.
  destruct (binaryZeroPad_valid input Hv)
    as (v & bits & m & Hb & _ & Hz & L & D & V & _).
  exists v, (firstn (Z.to_nat n) bits). repeat split.
  - exact Hb.
  - apply mask_prefix; [exact Hz|lia].
  - rewrite (len_firstn (Z.to_nat n)) by lia. lia.
  - now apply forallb_firstn.
  - rewrite (of_digits_firstn 2) by (try assumption; unfold len in L; lia).
    rewrite V, L, Z2Nat.id by lia. reflexivity.
Qed.

Lemma mask_value_witness :
  exists v p,
    bigInteger (new_Address4 (js "192.168.1.134/26")) = Some v /\
    mask (new_Address4 (js "192.168.1.134/26")) (Some (Num 26)) = Some p /\
    len p = 26 /\ forallb (is_digit 2) p = true /\
    of_digits 2 p = v / 2 ^ (32 - 26) /\
    mask (new_Address4 (js "192.168.1.134/26")) None
      = mask (new_Address4 (js "192.168.1.134/26"))
          (Some (subnetMask (new_Address4 (js "192.168.1.134/26")))).
Proof.
  apply (mask_value (js "192.168.1.134/26") 26); [reflexivity|lia].
Defined.

(** X17.  [mask(n)] outside [0,32] follows [slice]: above 32 it is the whole
    binary form, a negative [n] down to -32 counts from the end ([mask(n)] is
    [mask(32 + n)]), and below -32 it is the empty string. *)
Theorem mask_out_of_range (input : str) (n : Z) :
  isValid (new_Address4 input) = true ->
  (32 <= n ->
     mask (new_Address4 input) (Some (Num n)) = binaryZeroPad (new_Address4 input)) /\
  (-32 <= n < 0 ->
     mask (new_Address4 input) (Some (Num n))
     = mask (new_Address4 input) (Some (Num (32 + n)))) /\
  (n < -32 -> mask (new_Address4 input) (Some (Num n)) = Some []).
Proof.
  unfold isValid. intros Hv.
  destruct (binaryZeroPad_valid input Hv) as (v & bits & m & _ & _ & Hz & L & _).
  unfold mask, getBitsBase2. rewrite Hz. cbn [bind].
  unfold slice, toInteger. rewrite L. cbn [Z.ltb Z.compare Z.min Z.max skipn Z.to_nat].
  change (Z.to_nat 0) with 0%nat. cbn [skipn].
  repeat split; intros H; f_equal.
  - destruct (Z.ltb_spec n 0); [lia|]. rewrite Z.min_r by lia.
    apply firstn_all2. unfold len in L. lia.
  - destruct (Z.ltb_spec n 0); [|lia]. destruct (Z.ltb_spec (32 + n) 0); [lia|].
    rewrite Z.max_l, Z.min_l by lia. reflexivity.
  - destruct (Z.ltb_spec n 0); [|lia]. rewrite Z.max_r by lia. reflexivity.
Qed.

Lemma mask_out_of_range_witness :
  mask (new_Address4 (js "10.0.0.1")) (Some (Num (-8)))
  = mask (new_Address4 (js "10.0.0.1")) (Some (Num (32 + -8))).
Proof.
  apply (proj1 (proj2 (mask_out_of_range (js "10.0.0.1") (-8) eq_refl))). lia.
Defined.

Lemma fromBigInteger_mask (z : Z) :
  0 <= z < 2 ^ 32 -> subnetMask (fromBigInteger z) = Num 32.
Proof.
  intros H. rewrite (fromBigInteger_bytes z H).
  apply (address_of_value z H).
Qed.

(** X18.  On a valid address with value [v] and mask [m], [startAddress()]
    is [v] with its [32 - m] host bits cleared and [endAddress()] is the
    same with the host bits set, so the range has [2^(32-m)] addresses; both
    results are valid addresses that do not carry the mask over (their mask
    is 32). *)
Theorem start_end_address_values (input : str) :
  isValid (new_Address4 input) = true ->
  exists v m aS aE,
    bigInteger (new_Address4 input) = Some v /\
    subnetMask (new_Address4 input) = Num m /\ 0 <= m <= 32 /\
    startAddress (new_Address4 input) = Some aS /\
    endAddress (new_Address4 input) = Some aE /\
    bigInteger aS = Some (v - v mod 2 ^ (32 - m)) /\
    bigInteger aE = Some (v - v mod 2 ^ (32 - m) + 2 ^ (32 - m) - 1) /\
    isValid aS = true /\ isValid aE = true /\
    subnetMask aS = Num 32 /\ subnetMask aE = Num 32.
Proof.
  unfold isValid. intros Hv.
  destruct (start_end_values input Hv) as (v & m & Hb & Hr & Hm & Hmr & Hs & He).
  set (P := 2 ^ (32 - m)) in *.
  assert (HP : 0 < P) by (apply Z.pow_pos_nonneg; lia).
  assert (HPM : 2 ^ m * P = 2 ^ 32).
  { unfold P. rewrite <- Z.pow_add_r by lia. f_equal. lia. }
  assert (HM : 0 < 2 ^ m) by (apply Z.pow_pos_nonneg; lia).
  pose proof (Z.div_mod v P ltac:(lia)) as Hdm.
  pose proof (Z.mod_pos_bound v P HP) as Hmod.
  assert (Hq : 0 <= v / P < 2 ^ m).
  { split; [apply Z.div_pos; lia|]. apply Z.div_lt_upper_bound; lia. }
  assert (Es : v / P * P = v - v mod P) by lia.
  rewrite Es in Hs, He.
  assert (Hsr : 0 <= v - v mod P < 2 ^ 32) by lia.
  assert (Her : 0 <= v - v mod P + (P - 1) < 2 ^ 32) by nia.
  exists v, m, (fromBigInteger (v - v mod P)), (fromBigInteger (v - v mod P + (P - 1))).
  unfold startAddress, endAddress. rewrite Hs, He. cbn [bind].
  destruct (fromBigInteger_small _ Hsr) as [VS BS].
  destruct (fromBigInteger_small _ Her) as [VE BE].
  repeat split; try assumption; try lia.
  - rewrite BE. unfold P. f_equal. lia.
  - now apply fromBigInteger_mask.
  - now apply fromBigInteger_mask.
Qed.

Lemma start_end_address_values_witness :
  exists v m aS aE,
    bigInteger (new_Address4 (js "192.168.1.134/26")) = Some v /\
    subnetMask (new_Address4 (js "192.168.1.134/26")) = Num m /\ 0 <= m <= 32 /\
    startAddress (new_Address4 (js "192.168.1.134/26")) = Some aS /\
    endAddress (new_Address4 (js "192.168.1.134/26")) = Some aE /\
    bigInteger aS = Some (v - v mod 2 ^ (32 - m)) /\
    bigInteger aE = Some (v - v mod 2 ^ (32 - m) + 2 ^ (32 - m) - 1) /\
    isValid aS = true /\ isValid aE = true /\
    subnetMask aS = Num 32 /\ subnetMask aE = Num 32.
Proof.
  apply (start_end_address_values (js "192.168.1.134/26")). reflexivity.
Defined.

Lemma fromBigInteger_same (a : Address4) (g0 g1 g2 g3 : str) (v : Z) :
  groups_of a g0 g1 g2 g3 -> bigInteger a = Some v ->
  correctForm (fromBigInteger v) = correctForm a.
Proof.
  intros Hg Hb.
  destruct (groups_bytes _ _ _ _ _ Hg) as (B0 & B1 & B2 & B3).
  destruct (groups_bigInteger _ _ _ _ _ Hg) as [Hb' Hr].
  rewrite Hb in Hb'. injection Hb' as ->. cbn [map] in Hr.
  rewrite (fromBigInteger_bytes _ Hr).
  destruct (address_of_value _ Hr) as (_ & _ & _ & C & _).
  cbv zeta in C. rewrite C, (groups_correctForm _ _ _ _ _ Hg).
  destruct (bytes_of_of_bytes _ _ _ _ B0 B1 B2 B3) as [-> _].
  reflexivity.
Qed.

(** X19.  The two extreme masks.  A valid address with mask 32 (also the
    default, without suffix) is its own start and end address; with mask 0
    the start address is 0.0.0.0 and the end address is 255.255.255.255
    whatever the address. *)
Theorem start_end_extreme_masks (input : str) :
  isValid (new_Address4 input) = true ->
  (subnetMask (new_Address4 input) = Num 32 ->
     option_map correctForm (startAddress (new_Address4 input))
       = Some (correctForm (new_Address4 input)) /\
     option_map correctForm (endAddress (new_Address4 input))
       = Some (correctForm (new_Address4 input))) /\
  (subnetMask (new_Address4 input) = Num 0 ->
     option_map correctForm (startAddress (new_Address4 input))
       = Some (js "0.0.0.0") /\
     option_map correctForm (endAddress (new_Address4 input))
       = Some (js "255.255.255.255")).
Proof.
  unfold isValid. intros Hv.
  destruct (start_end_values input Hv) as (v & m & Hb & Hr & Hm & Hmr & Hs & He).
  destruct (valid_groups_of input Hv) as (g0 & g1 & g2 & g3 & Hg).
  unfold startAddress, endAddress. rewrite Hs, He. cbn [bind option_map].
  split; intros H32; rewrite Hm in H32; injection H32 as ->.
  - change (2 ^ (32 - 32)) with 1. rewrite Z.div_1_r, Z.mul_1_r.
    replace (v + (1 - 1)) with v by lia.
    now rewrite (fromBigInteger_same _ _ _ _ _ v Hg Hb).
  - change (2 ^ (32 - 0)) with 4294967296. change (2 ^ 32) with 4294967296 in Hr.
    rewrite Z.div_small by lia.
    split; reflexivity.
Qed.

Lemma start_end_extreme_masks_witness :
  (option_map correctForm (startAddress (new_Address4 (js "10.1.2.3")))
     = Some (correctForm (new_Address4 (js "10.1.2.3"))) /\
   option_map correctForm (endAddress (new_Address4 (js "10.1.2.3")))
     = Some (correctForm (new_Address4 (js "10.1.2.3")))) /\
  (option_map correctForm (startAddress (new_Address4 (js "10.1.2.3/0")))
     = Some (js "0.0.0.0") /\
   option_map correctForm (endAddress (new_Address4 (js "10.1.2.3/0")))
     = Some (js "255.255.255.255")).
Proof.
  split.
  - apply (proj1 (start_end_extreme_masks (js "10.1.2.3") eq_refl)). reflexivity.
  - apply (proj2 (start_end_extreme_masks (js "10.1.2.3/0") eq_refl)). reflexivity.
Defined.

(** X20.  On an invalid address, whichever check failed, the four boundary
    methods raise (they reach [binaryZeroPad()] on the [null] big integer),
    while [correctForm()], [toHex()], [toArray()] and [toGroup6()] return;
    [toArray()] has as many entries as [parsedAddress]. *)
Theorem boundary_methods_raise_when_invalid (input : str) :
  isValid (new_Address4 input) = false ->
  _startAddress (new_Address4 input) = None /\
  _endAddress (new_Address4 input) = None /\
  startAddress (new_Address4 input) = None /\
  endAddress (new_Address4 input) = None /\
  startAddressExclusive (new_Address4 input) = None /\
  endAddressExclusive (new_Address4 input) = None /\
  List.length (toArray (new_Address4 input))
    = List.length (parsedAddress (new_Address4 input)).
Proof.
  unfold isValid. intros Hv.
  assert (Hm : mask (new_Address4 input) None = None).
  { unfold mask, getBitsBase2, binaryZeroPad, bigInteger. now rewrite Hv. }
  unfold startAddress, endAddress, startAddressExclusive, endAddressExclusive,
    _startAddress, _endAddress, toArray.
  rewrite Hm, length_map. repeat split.
Qed.

Lemma boundary_methods_raise_when_invalid_witness :
  _startAddress (new_Address4 (js "1.2.3.256/24")) = None /\
  _endAddress (new_Address4 (js "1.2.3.256/24")) = None /\
  startAddress (new_Address4 (js "1.2.3.256/24")) = None /\
  endAddress (new_Address4 (js "1.2.3.256/24")) = None /\
  startAddressExclusive (new_Address4 (js "1.2.3.256/24")) = None /\
  endAddressExclusive (new_Address4 (js "1.2.3.256/24")) = None /\
  List.length (toArray (new_Address4 (js "1.2.3.256/24")))
    = List.length (parsedAddress (new_Address4 (js "1.2.3.256/24"))).
Proof.
  apply (boundary_methods_raise_when_invalid (js "1.2.3.256/24")). reflexivity.
Defined.

(** The four boundary addresses of a valid address, by value. *)
Lemma boundary_values (input : str) :
  valid (new_Address4 input) = true ->
  exists v m,
    bigInteger (new_Address4 input) = Some v /\ 0 <= v < 2 ^ 32 /\
    subnetMask (new_Address4 input) = Num m /\ 0 <= m <= 32 /\
    0 <= v / 2 ^ (32 - m) * 2 ^ (32 - m) /\
    v / 2 ^ (32 - m) * 2 ^ (32 - m) <= v /\
    v <= v / 2 ^ (32 - m) * 2 ^ (32 - m) + (2 ^ (32 - m) - 1) /\
    v / 2 ^ (32 - m) * 2 ^ (32 - m) + (2 ^ (32 - m) - 1) < 2 ^ 32 /\
    bind (startAddress (new_Address4 input)) bigInteger
      = Some (v / 2 ^ (32 - m) * 2 ^ (32 - m)) /\
    bind (endAddress (new_Address4 input)) bigInteger
      = Some (v / 2 ^ (32 - m) * 2 ^ (32 - m) + (2 ^ (32 - m) - 1)) /\
    startAddressExclusive (new_Address4 input)
      = Some (fromBigInteger (v / 2 ^ (32 - m) * 2 ^ (32 - m) + 1)) /\
    endAddressExclusive (new_Address4 input)
      = Some (fromBigInteger
                (v / 2 ^ (32 - m) * 2 ^ (32 - m) + (2 ^ (32 - m) - 1) - 1)).
Proof.
  intros Hv.
  destruct (start_end_values input Hv) as (v & m & Hb & Hr & Hm & Hmr & Hs & He).
  exists v, m.
  set (P := 2 ^ (32 - m)) in *.
  assert (HP : 0 < P) by (apply Z.pow_pos_nonneg; lia).
  assert (HPM : 2 ^ m * P = 2 ^ 32).
  { unfold P. rewrite <- Z.pow_add_r by lia. f_equal. lia. }
  assert (HM : 0 < 2 ^ m) by (apply Z.pow_pos_nonneg; lia).
  pose proof (Z.div_mod v P ltac:(lia)) as Hdm.
  pose proof (Z.mod_pos_bound v P HP) as Hmod.
  assert (Hq : 0 <= v / P < 2 ^ m).
  { split; [apply Z.div_pos; lia|]. apply Z.div_lt_upper_bound; lia. }
  assert (Hsr : 0 <= v / P * P < 2 ^ 32) by nia.
  assert (Her : 0 <= v / P * P + (P - 1) < 2 ^ 32) by nia.
  destruct (fromBigInteger_small _ Hsr) as [_ BS].
  destruct (fromBigInteger_small _ Her) as [_ BE].
  unfold startAddress, endAddress, startAddressExclusive, endAddressExclusive.
  rewrite Hs, He. cbn [bind]. change (new_BigInteger (js "1") 10) with 1.
  repeat split; try assumption; try lia.
Qed.

(** X21.  The host range of a valid address with mask [m].  For [m <= 30]
    the exclusive addresses are start + 1 and end - 1 and lie inside the
    range in order: start < start + 1 <= end - 1 < end.  For [m = 31] they
    cross: [startAddressExclusive()] is the end address and
    [endAddressExclusive()] is the start address. *)
Theorem exclusive_host_range (input : str) :
  isValid (new_Address4 input) = true ->
  exists m s e aSx aEx,
    subnetMask (new_Address4 input) = Num m /\
    bind (startAddress (new_Address4 input)) bigInteger = Some s /\
    bind (endAddress (new_Address4 input)) bigInteger = Some e /\
    startAddressExclusive (new_Address4 input) = Some aSx /\
    endAddressExclusive (new_Address4 input) = Some aEx /\
    (m <= 30 ->
       bigInteger aSx = Some (s + 1) /\ bigInteger aEx = Some (e - 1) /\
       s < s + 1 <= e - 1 /\ e - 1 < e) /\
    (m = 31 -> bigInteger aSx = Some e /\ bigInteger aEx = Some s).
Proof.
  unfold isValid. intros Hv.
  destruct (boundary_values input Hv)
    as (v & m & Hb & Hr & Hm & Hmr & S0 & S1 & E1 & E2 & HS & HE & HSx & HEx).
  set (P := 2 ^ (32 - m)) in *. set (s := v / P * P) in *.
  exists m, s, (s + (P - 1)), (fromBigInteger (s + 1)), (fromBigInteger (s + (P - 1) - 1)).
  repeat split; try assumption.
  - apply fromBigInteger_small.
    assert (4 <= P).
    { unfold P. change 4 with (2 ^ 2). apply Z.pow_le_mono_r; lia. }
    lia.
  - apply fromBigInteger_small.
    assert (4 <= P).
    { unfold P. change 4 with (2 ^ 2). apply Z.pow_le_mono_r; lia. }
    lia.
  - lia.
  - assert (4 <= P).
    { unfold P. change 4 with (2 ^ 2). apply Z.pow_le_mono_r; lia. }
    lia.
  - lia.
  - assert (HP2 : P = 2) by (unfold P; subst m; reflexivity).
    replace (s + (P - 1)) with (s + 1) by lia.
    apply fromBigInteger_small. lia.
  - assert (HP2 : P = 2) by (unfold P; subst m; reflexivity).
    replace (s + (P - 1) - 1) with s by lia.
    apply fromBigInteger_small. lia.
Qed.

Lemma exclusive_host_range_witness :
  exists m s e aSx aEx,
    subnetMask (new_Address4 (js "192.168.1.134/26")) = Num m /\
    bind (startAddress (new_Address4 (js "192.168.1.134/26"))) bigInteger = Some s /\
    bind (endAddress (new_Address4 (js "192.168.1.134/26"))) bigInteger = Some e /\
    startAddressExclusive (new_Address4 (js "192.168.1.134/26")) = Some aSx /\
    endAddressExclusive (new_Address4 (js "192.168.1.134/26")) = Some aEx /\
    (m <= 30 ->
       bigInteger aSx = Some (s + 1) /\ bigInteger aEx = Some (e - 1) /\
       s < s + 1 <= e - 1 /\ e - 1 < e) /\
    (m = 31 -> bigInteger aSx = Some e /\ bigInteger aEx = Some s).
Proof.
  apply (exclusive_host_range (js "192.168.1.134/26")). reflexivity.
Defined.

(** X22.  The bounds depend only on the subnet: a valid address with the
    same mask whose value lies between the start and the end address of
    another has the same start and end address. *)
Theorem same_subnet_same_bounds (input input' : str) (v' s e : Z) :
  isValid (new_Address4 input) = true ->
  isValid (new_Address4 input') = true ->
  subnetMask (new_Address4 input') = subnetMask (new_Address4 input) ->
  bigInteger (new_Address4 input') = Some v' ->
  bind (startAddress (new_Address4 input)) bigInteger = Some s ->
  bind (endAddress (new_Address4 input)) bigInteger = Some e ->
  s <= v' <= e ->
  bind (startAddress (new_Address4 input')) bigInteger = Some s /\
  bind (endAddress (new_Address4 input')) bigInteger = Some e.
Proof.
  unfold isValid. intros Hv Hv' Hmm Hb' Hs He Hin.
  destruct (boundary_values input Hv)
    as (v & m & Hb & Hr & Hm & Hmr & S0 & S1 & E1 & E2 & HS & HE & _).
  destruct (boundary_values input' Hv')
    as (w & m' & Hbw & Hrw & Hm' & _ & _ & _ & _ & _ & HS' & HE' & _).
  assert (Ew : w = v') by congruence. subst w.
  assert (Em : m' = m) by congruence. subst m'.
  set (P := 2 ^ (32 - m)) in *.
  assert (Es : s = v / P * P) by congruence.
  assert (Ee : e = v / P * P + (P - 1)) by congruence.
  assert (HP : 0 < P) by (apply Z.pow_pos_nonneg; lia).
  assert (Eq : v' / P = v / P).
  { symmetry. apply (Z.div_unique v' P (v / P) (v' - v / P * P)); lia. }
  rewrite HS', HE', Eq, Es, Ee. split; reflexivity.
Qed.

Lemma same_subnet_same_bounds_witness :
  bind (startAddress (new_Address4 (js "192.168.1.190/26"))) bigInteger
    = Some 3232235904 /\
  bind (endAddress (new_Address4 (js "192.168.1.190/26"))) bigInteger
    = Some 3232235967.
Proof.
  apply (same_subnet_same_bounds (js "192.168.1.134/26") (js "192.168.1.190/26")
           3232235966 3232235904 3232235967); try reflexivity.
  lia.
Defined.
